(** * Wisepanel MCP: the event buffer and its long-poll waiters

    A shallow embedding of [src/event-buffer.ts] (class [EventBuffer] and the
    helpers [stripThinkTags], [inferTopology]) together with the properties of
    the run registry, the read cursor and the waiter coordinator. *)

From Stdlib Require Import ZArith String Ascii List Bool Lia.
From stdpp Require Import gmap strings list fin_maps.

Set Warnings "-register-all".

Local Open Scope Z_scope.
Local Open Scope string_scope.
Local Open Scope list_scope.

(** ** JavaScript values

    Events are parsed JSON.  A number is carried as an integer, which is all
    the counters and comparisons of this module use; a string is a sequence
    of code units, of which the model carries those below 256. *)

Inductive JValue : Type :=
| JNull
| JBool (b : bool)
| JNum (n : Z)
| JStr (s : string)
| JArr (items : list JValue)
| JObj (fields : list (string * JValue)).

(** [o[k]] on a property bag; [None] is [undefined]. *)
Fixpoint lookupField (k : string) (o : list (string * JValue)) : option JValue :=
  match o with
  | [] => None
  | (k', v) :: rest => if String.eqb k k' then Some v else lookupField k rest
  end.

(** [v.k] for a value [v] that is not [null]: only objects carry the
    properties read here. *)
Definition fieldOf (v : JValue) (k : string) : option JValue :=
  match v with
  | JObj fields => lookupField k fields
  | _ => None
  end.

(** [conv?.k] and [conv.k] after the guard [if (!conv) return null]. *)
Definition fieldOfOpt (v : option JValue) (k : string) : option JValue :=
  match v with
  | Some x => fieldOf x k
  | None => None
  end.

(** JavaScript truthiness. *)
Definition truthy (v : option JValue) : bool :=
  match v with
  | None => false
  | Some JNull => false
  | Some (JBool b) => b
  | Some (JNum n) => negb (Z.eqb n 0)
  | Some (JStr s) => negb (String.eqb s "")
  | Some (JArr _) => true
  | Some (JObj _) => true
  end.

(** The casts [x as number], [x as string] and [x as Array<...>] are
    unchecked in the source; the model follows the declared type and reads a
    value of another kind as absent. *)

(** [(x as number) ?? d] *)
Definition numberNullish (v : option JValue) (d : Z) : Z :=
  match v with
  | Some (JNum n) => n
  | _ => d
  end.

(** [(x as number) || d] *)
Definition numberOr (v : option JValue) (d : Z) : Z :=
  match v with
  | Some (JNum n) => if Z.eqb n 0 then d else n
  | _ => d
  end.

(** [(x as number) || undefined] *)
Definition numberOrUndefined (v : option JValue) : option Z :=
  match v with
  | Some (JNum n) => if Z.eqb n 0 then None else Some n
  | _ => None
  end.

(** [(x as string) || d] *)
Definition stringOr (v : option JValue) (d : string) : string :=
  match v with
  | Some (JStr s) => if String.eqb s "" then d else s
  | _ => d
  end.

(** [(x as string) || undefined] *)
Definition stringOrUndefined (v : option JValue) : option string :=
  match v with
  | Some (JStr s) => if String.eqb s "" then None else Some s
  | _ => None
  end.

(** [(x as Array<Record<string, unknown>>) || []] *)
Definition arrayOrEmpty (v : option JValue) : list JValue :=
  match v with
  | Some (JArr items) => items
  | _ => []
  end.

(** ** Events and run state *)

(** [interface SSEEvent { type: string; [key: string]: unknown }] *)
Record SSEEvent : Type := mkEvent {
  type : string;
  props : list (string * JValue)
}.

Inductive Status : Type := running | completed | failed | canceled.

Definition Status_eqb (a b : Status) : bool :=
  match a, b with
  | running, running | completed, completed
  | failed, failed | canceled, canceled => true
  | _, _ => false
  end.

Record RunState : Type := mkRun {
  events : list SSEEvent;
  lastPollIndex : nat;
  status : Status;
  agentsTotal : Z;
  agentsResponded : Z;
  estimatedCost : Z;
  finalResult : option SSEEvent;
  topic : string
}.

Definition INTERESTING_TYPES : list string :=
  [ "agent_response"; "phase_start"; "conversation_complete";
    "final"; "error"; "cost_estimation"; "agents_created";
    "billing_complete"; "roles_generated" ].

(** [INTERESTING_TYPES.has(t)] *)
Definition interesting (t : string) : bool :=
  existsb (String.eqb t) INTERESTING_TYPES.

Definition isInteresting (e : SSEEvent) : bool := interesting (type e).

(** ** The waiter closures

    Each pending [waitForEvents] call allocates one closure [settle] with its
    captured variables: the run id, the flag [settled], the timer of
    [setTimeout] and the promise's [resolve].  The closures live in a heap
    indexed by allocation order; the registration lists hold heap indices, so
    that [list.indexOf(fn)] compares closures by identity. *)

Record Waiter : Type := mkWaiter {
  waiterRun : string;
  settled : bool;
  timerArmed : bool;     (* the timeout of [setTimeout] is still scheduled *)
  resolveCalls : nat     (* how many times [resolve()] ran *)
}.

Record EventBuffer : Type := mkBuffer {
  runs : gmap string RunState;
  waiters : gmap string (list nat);
  heap : list Waiter
}.

Definition emptyBuffer : EventBuffer :=
  {| runs := ∅; waiters := ∅; heap := [] |}.

Definition withRuns (b : EventBuffer) (r : gmap string RunState) : EventBuffer :=
  {| runs := r; waiters := waiters b; heap := heap b |}.

Definition withWaiters (b : EventBuffer) (w : gmap string (list nat)) : EventBuffer :=
  {| runs := runs b; waiters := w; heap := heap b |}.

Definition withHeap (b : EventBuffer) (h : list Waiter) : EventBuffer :=
  {| runs := runs b; waiters := waiters b; heap := h |}.

(** ** Run registry and event log *)

Definition newRun : RunState :=
  {| events := []; lastPollIndex := 0; status := running;
     agentsTotal := 0; agentsResponded := 0; estimatedCost := 0;
     finalResult := None; topic := "" |}.

Definition createRun (runId : string) (b : EventBuffer) : EventBuffer :=
  withRuns b (<[runId := newRun]> (runs b)).

(** [run.events.push(event)] *)
Definition pushEvent (event : SSEEvent) (run : RunState) : RunState :=
  {| events := events run ++ [event]; lastPollIndex := lastPollIndex run;
     status := status run; agentsTotal := agentsTotal run;
     agentsResponded := agentsResponded run;
     estimatedCost := estimatedCost run;
     finalResult := finalResult run; topic := topic run |}.

Definition setTopic (t : string) (run : RunState) : RunState :=
  {| events := events run; lastPollIndex := lastPollIndex run;
     status := status run; agentsTotal := agentsTotal run;
     agentsResponded := agentsResponded run;
     estimatedCost := estimatedCost run;
     finalResult := finalResult run; topic := t |}.

Definition setAgentsTotal (n : Z) (run : RunState) : RunState :=
  {| events := events run; lastPollIndex := lastPollIndex run;
     status := status run; agentsTotal := n;
     agentsResponded := agentsResponded run;
     estimatedCost := estimatedCost run;
     finalResult := finalResult run; topic := topic run |}.

Definition setAgentsResponded (n : Z) (run : RunState) : RunState :=
  {| events := events run; lastPollIndex := lastPollIndex run;
     status := status run; agentsTotal := agentsTotal run;
     agentsResponded := n;
     estimatedCost := estimatedCost run;
     finalResult := finalResult run; topic := topic run |}.

Definition setEstimatedCost (n : Z) (run : RunState) : RunState :=
  {| events := events run; lastPollIndex := lastPollIndex run;
     status := status run; agentsTotal := agentsTotal run;
     agentsResponded := agentsResponded run;
     estimatedCost := n;
     finalResult := finalResult run; topic := topic run |}.

Definition setRunStatus (s : Status) (run : RunState) : RunState :=
  {| events := events run; lastPollIndex := lastPollIndex run;
     status := s; agentsTotal := agentsTotal run;
     agentsResponded := agentsResponded run;
     estimatedCost := estimatedCost run;
     finalResult := finalResult run; topic := topic run |}.

Definition setFinalResult (f : option SSEEvent) (run : RunState) : RunState :=
  {| events := events run; lastPollIndex := lastPollIndex run;
     status := status run; agentsTotal := agentsTotal run;
     agentsResponded := agentsResponded run;
     estimatedCost := estimatedCost run;
     finalResult := f; topic := topic run |}.

Definition setLastPollIndex (i : nat) (run : RunState) : RunState :=
  {| events := events run; lastPollIndex := i;
     status := status run; agentsTotal := agentsTotal run;
     agentsResponded := agentsResponded run;
     estimatedCost := estimatedCost run;
     finalResult := finalResult run; topic := topic run |}.

(** [if (v) run.topic = v as string] *)
Definition seedTopic (v : option JValue) (run : RunState) : RunState :=
  match v with
  | Some (JStr s) => if String.eqb s "" then run else setTopic s run
  | _ => run
  end.

(** [event.status === 'canceled' ? 'canceled' : 'completed'] *)
Definition finalStatus (event : SSEEvent) : Status :=
  match lookupField "status" (props event) with
  | Some (JStr s) => if String.eqb s "canceled" then canceled else completed
  | _ => completed
  end.

(** The [switch (event.type)] of [addEvent]. *)
Definition applyEvent (event : SSEEvent) (run : RunState) : RunState :=
  let t := type event in
  if String.eqb t "connection" then
    seedTopic (lookupField "topic" (props event)) run
  else if String.eqb t "agents_created" then
    setAgentsTotal (numberNullish (lookupField "count" (props event)) 0) run
  else if String.eqb t "agent_response" then
    setAgentsResponded (agentsResponded run + 1) run
  else if String.eqb t "cost_estimation" then
    setEstimatedCost
      (numberNullish (lookupField "estimated_cost" (props event)) 0) run
  else if String.eqb t "final" then
    let run1 :=
      setFinalResult (Some event) (setRunStatus (finalStatus event) run) in
    if String.eqb (topic run1) "" then
      seedTopic
        (fieldOfOpt (lookupField "conversation" (props event)) "topic") run1
    else run1
  else if String.eqb t "error" then
    setRunStatus failed run
  else if String.eqb t "cancelled" then
    setRunStatus canceled run
  else run.

(** ** Waiter coordinator *)

(** [list.indexOf(fn)] followed by [list.splice(idx, 1)]: drop the first
    occurrence. *)
Fixpoint spliceFirst (fn : nat) (l : list nat) : list nat :=
  match l with
  | [] => []
  | x :: rest => if Nat.eqb x fn then rest else x :: spliceFirst fn rest
  end.

Definition removeWaiter (runId : string) (fn : nat) (b : EventBuffer) : EventBuffer :=
  match waiters b !! runId with
  | None => b
  | Some l =>
      let l' := spliceFirst fn l in
      match l' with
      | [] => withWaiters b (delete runId (waiters b))
      | _ => withWaiters b (<[runId := l']> (waiters b))
      end
  end.

(** The closure [settle] of the waiter at heap index [fn]. *)
Definition settle (fn : nat) (b : EventBuffer) : EventBuffer :=
  match heap b !! fn with
  | None => b
  | Some w =>
      if settled w then b
      else
        (* settled = true; clearTimeout(timer) *)
        let w1 := {| waiterRun := waiterRun w; settled := true;
                     timerArmed := false; resolveCalls := resolveCalls w |} in
        let b1 := withHeap b (<[fn := w1]> (heap b)) in
        (* this.removeWaiter(runId, settle) *)
        let b2 := removeWaiter (waiterRun w) fn b1 in
        (* resolve() *)
        let w2 := {| waiterRun := waiterRun w1; settled := settled w1;
                     timerArmed := timerArmed w1;
                     resolveCalls := S (resolveCalls w1) |} in
        withHeap b2 (<[fn := w2]> (heap b2))
  end.

(** The timer of [setTimeout(settle, timeoutMs)] elapses: a one-shot timer
    that has not been cleared runs its callback. *)
Definition timerFires (fn : nat) (b : EventBuffer) : EventBuffer :=
  match heap b !! fn with
  | None => b
  | Some w =>
      if timerArmed w then
        let w1 := {| waiterRun := waiterRun w; settled := settled w;
                     timerArmed := false; resolveCalls := resolveCalls w |} in
        settle fn (withHeap b (<[fn := w1]> (heap b)))
      else b
  end.

Definition notifyWaiters (runId : string) (b : EventBuffer) : EventBuffer :=
  match waiters b !! runId with
  | None => b
  | Some l =>
      let copy := l in
      let b1 := withWaiters b (delete runId (waiters b)) in
      fold_left (fun acc fn => settle fn acc) copy b1
  end.

Definition addEvent (runId : string) (event : SSEEvent) (b : EventBuffer) : EventBuffer :=
  match runs b !! runId with
  | None => b
  | Some run =>
      let run' := applyEvent event (pushEvent event run) in
      let b' := withRuns b (<[runId := run']> (runs b)) in
      if interesting (type event) || String.eqb (type event) "cancelled"
      then notifyWaiters runId b'
      else b'
  end.

(** [run.events.slice(run.lastPollIndex)] *)
Definition pending (run : RunState) : list SSEEvent :=
  drop (lastPollIndex run) (events run).

(** [waitForEvents]: the promise returned is either already resolved
    ([None]) or pending on the waiter allocated at the returned heap index. *)
Definition waitForEvents (runId : string) (b : EventBuffer) : EventBuffer * option nat :=
  match runs b !! runId with
  | None => (b, None)
  | Some run =>
      let hasNew := existsb isInteresting (pending run) in
      if hasNew || negb (Status_eqb (status run) running) then (b, None)
      else
        let fn := length (heap b) in
        let w := {| waiterRun := runId; settled := false;
                    timerArmed := true; resolveCalls := 0 |} in
        let b1 := withHeap b (heap b ++ [w]) in
        let l := default [] (waiters b1 !! runId) in
        (withWaiters b1 (<[runId := l ++ [fn]]> (waiters b1)), Some fn)
  end.

Record PollResult : Type := mkPoll {
  pollStatus : Status;
  newEvents : list SSEEvent;
  pollAgentsResponded : Z;
  pollAgentsTotal : Z
}.

Definition getNewEvents (runId : string) (b : EventBuffer) : EventBuffer * option PollResult :=
  match runs b !! runId with
  | None => (b, None)
  | Some run =>
      let evs := filter (fun e => isInteresting e = true) (pending run) in
      let run' := setLastPollIndex (length (events run)) run in
      (withRuns b (<[runId := run']> (runs b)),
       Some {| pollStatus := status run'; newEvents := evs;
               pollAgentsResponded := agentsResponded run';
               pollAgentsTotal := agentsTotal run' |})
  end.

Record RunInfo : Type := mkInfo {
  infoStatus : Status;
  infoAgentsTotal : Z;
  infoAgentsResponded : Z;
  infoEstimatedCost : Z
}.

Definition getRunInfo (runId : string) (b : EventBuffer) : option RunInfo :=
  match runs b !! runId with
  | None => None
  | Some run =>
      Some {| infoStatus := status run; infoAgentsTotal := agentsTotal run;
              infoAgentsResponded := agentsResponded run;
              infoEstimatedCost := estimatedCost run |}
  end.

Definition getResult (runId : string) (b : EventBuffer) : option (Status * option SSEEvent) :=
  match runs b !! runId with
  | None => None
  | Some run => Some (status run, finalResult run)
  end.

Definition has (runId : string) (b : EventBuffer) : bool :=
  bool_decide (is_Some (runs b !! runId)).

Definition setStatus (runId : string) (s : Status) (b : EventBuffer) : EventBuffer :=
  match runs b !! runId with
  | None => b
  | Some run => withRuns b (<[runId := setRunStatus s run]> (runs b))
  end.

(** ** Publish data *)

Definition thinkOpen : string := "<think>".
Definition thinkClose : string := "</think>".

Fixpoint dropString (n : nat) (s : string) : string :=
  match n, s with
  | O, _ => s
  | S k, EmptyString => EmptyString
  | S k, String _ rest => dropString k rest
  end.

(** Offset of the first occurrence of [p] in [s]. *)
Fixpoint findSub (p s : string) : option nat :=
  if String.prefix p s then Some O
  else match s with
       | EmptyString => None
       | String _ rest => option_map S (findSub p rest)
       end.

(** Length of the match of [/<think>[\s\S]*?<\/think>/] anchored at the
    start of [s]: the opening tag, the shortest body, the closing tag. *)
Definition matchThink (s : string) : option nat :=
  if String.prefix thinkOpen s then
    match findSub thinkClose (dropString 7 s) with
    | Some j => Some (7 + j + 8)%nat
    | None => None
    end
  else None.

(** [message.replace(/<think>[\s\S]*?<\/think>/g, '')]: one scan from the
    left; [skip] counts the code units of the current match still to drop. *)
Fixpoint replaceThink (skip : nat) (s : string) : string :=
  match s with
  | EmptyString => EmptyString
  | String c rest =>
      match skip with
      | S k => replaceThink k rest
      | O =>
          match matchThink s with
          | Some n => replaceThink (n - 1) rest
          | None => String c (replaceThink 0 rest)
          end
      end
  end.

(** White space and line terminators of [String.prototype.trim] among the
    code units below 256: TAB, LF, VT, FF, CR, SP and NBSP. *)
Definition isWhiteSpace (c : ascii) : bool :=
  let n := nat_of_ascii c in
  ((9 <=? n)%nat && (n <=? 13)%nat) || (n =? 32)%nat || (n =? 160)%nat.

Fixpoint trimStart (s : string) : string :=
  match s with
  | EmptyString => EmptyString
  | String c rest => if isWhiteSpace c then trimStart rest else s
  end.

Fixpoint trimEnd (s : string) : string :=
  match s with
  | EmptyString => EmptyString
  | String c rest =>
      match trimEnd rest with
      | EmptyString => if isWhiteSpace c then EmptyString else String c EmptyString
      | r => String c r
      end
  end.

Definition trim (s : string) : string := trimEnd (trimStart s).

Definition stripThinkTags (message : string) : string :=
  trim (replaceThink 0 message).

Definition inferTopology (agentCount : Z) : string :=
  if Z.leb agentCount 4 then "small"
  else if Z.leb agentCount 6 then "medium"
  else "large".

Record PublishResponse : Type := mkResponse {
  round : Z;
  agent : string;
  role : string;
  message : string;
  model : option string;
  provider : option string
}.

Record CommonsPublishData : Type := mkPublish {
  pubRunId : string;
  pubTopic : string;
  topologyType : string;
  numRounds : Z;
  modelGroup : string;
  agentCount : Z;
  totalTokens : option Z;
  durationSeconds : option Z;
  responses : list PublishResponse
}.

(** The object pushed for one response [r] of a node whose round is
    [roundNum]. *)
Definition responseEntry (roundNum : Z) (r : JValue) : PublishResponse :=
  {| round := roundNum;
     agent := stringOr (fieldOf r "agent_name") "";
     role := stringOr (fieldOf r "agent_role") "";
     message := stripThinkTags (stringOr (fieldOf r "message") "");
     model := stringOrUndefined (fieldOf r "model");
     provider := stringOrUndefined (fieldOf r "provider") |}.

(** The three nested [for ... of] loops, each pushing onto [responses]. *)
Definition nodeLoop (acc : list PublishResponse) (node : JValue) : list PublishResponse :=
  let roundNum := numberOr (fieldOf node "round") 1 in
  let nodeResponses := arrayOrEmpty (fieldOf node "responses") in
  fold_left (fun acc r => acc ++ [responseEntry roundNum r]) nodeResponses acc.

Definition roundLoop (acc : list PublishResponse) (rnd : JValue) : list PublishResponse :=
  let nodeResults := arrayOrEmpty (fieldOf rnd "node_results") in
  fold_left nodeLoop nodeResults acc.

Definition buildResponses (roundResults : list JValue) : list PublishResponse :=
  fold_left roundLoop roundResults [].

(** [(a as string) || (b as string) || (c as string) || inferTopology(n)] *)
Definition topologyOf (conv : JValue) (total : Z) : string :=
  stringOr (fieldOf conv "polyhedron_type")
    (stringOr (fieldOf conv "topology_type")
       (stringOr (fieldOf conv "topology") (inferTopology total))).

Definition getPublishData (runId : string) (b : EventBuffer) : option CommonsPublishData :=
  match runs b !! runId with
  | None => None
  | Some run =>
      if negb (Status_eqb (status run) completed) then None
      else
        match finalResult run with
        | None => None
        | Some final =>
            match lookupField "conversation" (props final) with
            | None => None
            | Some conv =>
                if negb (truthy (Some conv)) then None
                else
                  let connectionEvent :=
                    List.find (fun e => String.eqb (type e) "connection")
                              (events run) in
                  let apiRunId :=
                    match connectionEvent with
                    | Some e => stringOr (lookupField "run_id" (props e)) runId
                    | None => runId
                    end in
                  let roundResults := arrayOrEmpty (fieldOf conv "round_results") in
                  Some {| pubRunId := apiRunId;
                          pubTopic := stringOr (fieldOf conv "topic") "";
                          topologyType := topologyOf conv (agentsTotal run);
                          numRounds := numberOr (fieldOf conv "total_rounds") 1;
                          modelGroup := stringOr (fieldOf conv "model_group") "mixed";
                          agentCount := agentsTotal run;
                          totalTokens := numberOrUndefined (fieldOf conv "total_tokens");
                          durationSeconds :=
                            match numberOrUndefined (fieldOf conv "duration_seconds") with
                            | Some d => Some d
                            | None => numberOrUndefined (fieldOf conv "duration")
                            end;
                          responses := buildResponses roundResults |}
            end
        end
  end.

(** ** Sequences of operations

    The operations that change the buffer, as the callers of [tools.ts] and
    the timers of the event loop issue them one after the other (the
    scheduling is cooperative: each runs to completion).  The read-only
    queries [getResult], [getRunInfo], [has], [getPublishData] and [listRuns]
    leave the buffer as it is and are left out of the traces. *)

Inductive Op : Type :=
| OpCreateRun (runId : string)
| OpAddEvent (runId : string) (event : SSEEvent)
| OpWaitForEvents (runId : string)
| OpTimerFires (fn : nat)
| OpGetNewEvents (runId : string)
| OpSetStatus (runId : string) (s : Status).

Definition step (op : Op) (b : EventBuffer) : EventBuffer :=
  match op with
  | OpCreateRun runId => createRun runId b
  | OpAddEvent runId event => addEvent runId event b
  | OpWaitForEvents runId => fst (waitForEvents runId b)
  | OpTimerFires fn => timerFires fn b
  | OpGetNewEvents runId => fst (getNewEvents runId b)
  | OpSetStatus runId s => setStatus runId s b
  end.

Definition runOps (ops : list Op) (b : EventBuffer) : EventBuffer :=
  fold_left (fun acc op => step op acc) ops b.

(** The history of one run id along a trace: the events appended to its log
    and the events handed out by its [getNewEvents] calls, both since the
    run was last created. *)
Record History : Type := mkHistory {
  appended : list SSEEvent;
  delivered : list SSEEvent
}.

Definition observe (runId : string) (op : Op) (b : EventBuffer) (h : History) : History :=
  match op with
  | OpCreateRun r =>
      if String.eqb r runId then {| appended := []; delivered := [] |} else h
  | OpAddEvent r event =>
      if String.eqb r runId && has r b
      then {| appended := appended h ++ [event]; delivered := delivered h |}
      else h
  | OpGetNewEvents r =>
      if String.eqb r runId then
        match snd (getNewEvents r b) with
        | Some res => {| appended := appended h;
                         delivered := delivered h ++ newEvents res |}
        | None => h
        end
      else h
  | _ => h
  end.

Fixpoint historyOf (runId : string) (ops : list Op) (b : EventBuffer) (h : History) : History :=
  match ops with
  | [] => h
  | op :: rest => historyOf runId rest (step op b) (observe runId op b h)
  end.

(** ** Invariants of the traces

    The notions the statements below are phrased with: the run an operation
    is addressed to, the invariants of the states between two operations, and
    the flattened responses as comprehensions. *)

(** The run id an operation is addressed to, if any. *)
Definition opRun (op : Op) : option string :=
  match op with
  | OpCreateRun r | OpAddEvent r _ | OpWaitForEvents r
  | OpGetNewEvents r | OpSetStatus r _ => Some r
  | OpTimerFires _ => None
  end.

Definition noHistory : History := {| appended := []; delivered := [] |}.

(** The cursor invariant of one run along a trace: the log is what was
    appended, the cursor is inside the log, and what was handed out is the
    interesting part of the log below the cursor. *)
Definition cursorInv (runId : string) (b : EventBuffer) (h : History) : Prop :=
  exists run,
    runs b !! runId = Some run
    /\ events run = appended h
    /\ (lastPollIndex run <= length (events run))%nat
    /\ delivered h
       = filter (fun e => isInteresting e = true)
                (take (lastPollIndex run) (events run)).

(** Every cursor is within its log. *)
Definition cursorsOk (b : EventBuffer) : Prop :=
  forall runId run,
    runs b !! runId = Some run ->
    (lastPollIndex run <= length (events run))%nat.

(** The operations that may put a run back to [running]: creating the id
    again, and the override [setStatus(id, 'running')]. *)
Definition revives (runId : string) (op : Op) : bool :=
  match op with
  | OpCreateRun r => String.eqb r runId
  | OpSetStatus r running => String.eqb r runId
  | _ => false
  end.

(** The closure after its one effective call: flag set, timer cleared,
    [resolve] called once more. *)
Definition woken (w : Waiter) : Waiter :=
  {| waiterRun := waiterRun w; settled := true; timerArmed := false;
     resolveCalls := S (resolveCalls w) |}.

(** The waiters between two operations: a closure is either settled
    (timer cleared, one [resolve] call) or pending (timer armed, no call);
    a registration list is never empty, has no closure twice and holds
    pending closures of its own run only; every pending closure is on the
    list of its run. *)
Definition heapOk (b : EventBuffer) : Prop :=
  forall fn w,
    heap b !! fn = Some w ->
    if settled w
    then timerArmed w = false /\ resolveCalls w = 1%nat
    else timerArmed w = true /\ resolveCalls w = 0%nat.

Definition registrationsOk (b : EventBuffer) : Prop :=
  forall runId l,
    waiters b !! runId = Some l ->
    l <> [] /\ NoDup l
    /\ forall fn, fn ∈ l ->
         exists w, heap b !! fn = Some w /\ waiterRun w = runId
                   /\ settled w = false.

Definition pendingRegistered (b : EventBuffer) : Prop :=
  forall fn w,
    heap b !! fn = Some w ->
    settled w = false ->
    exists l, waiters b !! waiterRun w = Some l /\ fn ∈ l.

Definition waitersInv (b : EventBuffer) : Prop :=
  heapOk b /\ registrationsOk b /\ pendingRegistered b.




(** ** Events and buffers of the scenarios *)

Definition sampleResponse : SSEEvent :=
  {| type := "agent_response";
     props := [("agent", JStr "Ada"); ("message", JStr "hello")] |}.

Definition connectionEvent (runId topicText : string) : SSEEvent :=
  {| type := "connection";
     props := [("run_id", JStr runId); ("topic", JStr topicText)] |}.

Definition agentsCreatedEvent (count : Z) : SSEEvent :=
  {| type := "agents_created"; props := [("count", JNum count)] |}.

Definition agentResponseEvent (payload : list (string * JValue)) : SSEEvent :=
  {| type := "agent_response"; props := payload |}.

Definition finalEvent (payload : list (string * JValue)) : SSEEvent :=
  {| type := "final"; props := payload |}.

Definition errorEvent : SSEEvent :=
  {| type := "error"; props := [("message", JStr "upstream failure")] |}.

Definition cancelledEvent : SSEEvent :=
  {| type := "cancelled"; props := [] |}.

Definition responseObject (name text : string) : JValue :=
  JObj [("agent_name", JStr name); ("agent_role", JStr "panelist");
        ("message", JStr text)].

Definition nodeObject (roundNum : Z) (rs : list JValue) : JValue :=
  JObj [("round", JNum roundNum); ("responses", JArr rs)].

Definition roundObject (nodes : list JValue) : JValue :=
  JObj [("node_results", JArr nodes)].

(** A buffer with two runs: [R2] with a logged response, [R1] with a
    pending waiter. *)
Definition sampleBuffer : EventBuffer :=
  fst (waitForEvents "R1"
         (createRun "R1"
            (addEvent "R2" sampleResponse (createRun "R2" emptyBuffer)))).

(** The scenario of the first poll: create [R1]; add the connection
    event; add [agents_created] with count 4 ... *)
Definition scenarioStart (b0 : EventBuffer) : EventBuffer :=
  addEvent "R1" (agentsCreatedEvent 4)
    (addEvent "R1" (connectionEvent "R1" "X") (createRun "R1" b0)).

(** ... then four [agent_response] events. *)
Definition scenarioPolled (b0 : EventBuffer) (p1 p2 p3 p4 : list (string * JValue)) : EventBuffer :=
  addEvent "R1" (agentResponseEvent p4)
    (addEvent "R1" (agentResponseEvent p3)
       (addEvent "R1" (agentResponseEvent p2)
          (addEvent "R1" (agentResponseEvent p1) (scenarioStart b0)))).

(** A run completed by a final event without a conversation. *)
Definition completedBuffer : EventBuffer :=
  addEvent "R1" (finalEvent [("status", JStr "completed")])
    (createRun "R1" emptyBuffer).

(** A run completed by a final event with the given [round_results]. *)
Definition completedWith (roundResults : list JValue) : EventBuffer :=
  addEvent "R1"
    (finalEvent [("conversation",
                  JObj [("topic", JStr "X");
                        ("round_results", JArr roundResults)])])
    (createRun "R1" emptyBuffer).

(** ** The log by event type *)

Definition hasType (t : string) (e : SSEEvent) : bool := String.eqb (type e) t.

(** The events of one type, in log order. *)
Definition eventsOfType (t : string) (evs : list SSEEvent) : list SSEEvent :=
  List.filter (hasType t) evs.

(** The number carried under [key] by the latest event of type [t], 0 when
    there is none. *)
Definition latestNumber (t key : string) (evs : list SSEEvent) : Z :=
  match last (eventsOfType t evs) with
  | Some e => numberNullish (lookupField key (props e)) 0
  | None => 0
  end.

(** The counters and the cached final event as functions of the log. *)
Definition countersMatchLog (run : RunState) : Prop :=
  agentsResponded run
  = Z.of_nat (length (eventsOfType "agent_response" (events run)))
  /\ agentsTotal run = latestNumber "agents_created" "count" (events run)
  /\ estimatedCost run
     = latestNumber "cost_estimation" "estimated_cost" (events run)
  /\ finalResult run = last (eventsOfType "final" (events run)).

(** A trace with a status override between two events, for the examples. *)
Definition sampleOps : list Op :=
  [ OpCreateRun "R1";
    OpAddEvent "R1" (agentsCreatedEvent 4);
    OpAddEvent "R1" sampleResponse;
    OpAddEvent "R1" (finalEvent [("status", JStr "completed")]);
    OpSetStatus "R1" canceled;
    OpAddEvent "R1" sampleResponse ].

Definition sampleOpsRun : RunState :=
  {| events := [agentsCreatedEvent 4; sampleResponse;
                finalEvent [("status", JStr "completed")]; sampleResponse];
     lastPollIndex := 0; status := canceled;
     agentsTotal := 4; agentsResponded := 2; estimatedCost := 0;
     finalResult := Some (finalEvent [("status", JStr "completed")]);
     topic := "" |}.

(** ** The order of the registry

    [listRuns] iterates over the [Map] of runs, whose iteration order is the
    order in which the keys were first set ([Map.set] on a key that is
    present keeps its place).  The registry being modelled as a finite map
    without an order, the key order is carried beside it, computed from the
    operations. *)

Definition mapSetKey (k : string) (order : list string) : list string :=
  if bool_decide (k ∈ order) then order else order ++ [k].

Definition stepKeys (op : Op) (order : list string) : list string :=
  match op with
  | OpCreateRun r => mapSetKey r order
  | _ => order
  end.

Definition keysAfter (ops : list Op) (order : list string) : list string :=
  fold_left (fun acc op => stepKeys op acc) ops order.

Record RunSummary : Type := mkSummary {
  summaryRunId : string;
  summaryStatus : Status;
  summaryTopic : string;
  summaryAgentsTotal : Z;
  summaryAgentsResponded : Z
}.

Definition summaryOf (runId : string) (run : RunState) : RunSummary :=
  {| summaryRunId := runId; summaryStatus := status run;
     summaryTopic := topic run; summaryAgentsTotal := agentsTotal run;
     summaryAgentsResponded := agentsResponded run |}.

(** [for (const [runId, run] of this.runs) result.push({...})] *)
Definition listRuns (order : list string) (b : EventBuffer) : list RunSummary :=
  omap (fun runId => summaryOf runId <$> runs b !! runId) order.

(** The keys in iteration order agree with the registry. *)
Definition keysAgree (order : list string) (b : EventBuffer) : Prop :=
  NoDup order /\ forall r, r ∈ order <-> is_Some (runs b !! r).

(** ** The tool handlers of [tools.ts]

    The handlers answer with [JSON.stringify] of an object; the model keeps
    the object: [ReplyError msg] is [{ error: msg }], [ReplyOk] carries the
    payload of a successful answer, and [ReplyThrows] is the [TypeError] of
    reading a property of [null] behind a non-null assertion [x!]. *)

Inductive ToolReply (A : Type) : Type :=
| ReplyError (error : string)
| ReplyOk (payload : A)
| ReplyThrows.

Arguments ReplyError {A} error.
Arguments ReplyOk {A} payload.
Arguments ReplyThrows {A}.

Definition LF : ascii := "010"%char.

(** The text [handleResult] puts behind the formatted result. *)
Definition resultSuffix : string :=
  String LF (String LF
    ("---" +:+ String LF
       "_Publish this deliberation to the [Wisepanel Commons](https://wisepanel.ai/commons) using wisepanel_publish._")).

(** [handleResult]; the formatter [formatFinalResult] is a parameter. *)
Definition handleResult (formatFinalResult : SSEEvent -> string)
    (runId : string) (b : EventBuffer) : ToolReply string :=
  if negb (has runId b) then ReplyError ("Run " +:+ runId +:+ " not found.")
  else
    match getResult runId b with
    | None => ReplyThrows
    | Some (running, _) =>
        ReplyError "Run still in progress. Use wisepanel_poll to check status."
    | Some (failed, _) => ReplyError "Run failed."
    | Some (canceled, _) => ReplyError "Run was canceled."
    | Some (completed, None) => ReplyError "No result available."
    | Some (completed, Some final) =>
        ReplyOk (formatFinalResult final +:+ resultSuffix)
    end.

(** [handlePublish] up to the call of [client.publishToCommons]: the error
    it answers with, or the data it hands to the client. *)
Definition handlePublishRequest (runId : string) (b : EventBuffer) : ToolReply CommonsPublishData :=
  if negb (has runId b) then
    ReplyError ("Run " +:+ runId
                +:+ " not found. It may have been started in a previous session.")
  else
    match infoStatus <$> getRunInfo runId b with
    | Some running =>
        ReplyError "Run still in progress. Wait for it to complete before publishing."
    | Some failed => ReplyError "Run failed. Cannot publish a failed deliberation."
    | Some canceled =>
        ReplyError "Run was canceled. Cannot publish a canceled deliberation."
    | _ =>
        match getPublishData runId b with
        | None =>
            ReplyError "Could not extract publish data from run. The run may not have completed properly."
        | Some data => ReplyOk data
        end
    end.

(** The state of the module: the buffer and the keys of [activeStreams]. *)
Record Tools : Type := mkTools {
  buffer : EventBuffer;
  activeStreams : gset string
}.

(** [handleCancel]: the stream is aborted and forgotten, the remote cancel
    is attempted (its failure is ignored), and the status of a known run is
    overridden. *)
Definition handleCancel (runId : string) (t : Tools) : Tools :=
  {| buffer := if has runId (buffer t)
               then setStatus runId canceled (buffer t)
               else buffer t;
     activeStreams := activeStreams t ∖ {[runId]} |}.

(** The [catch] of [handleStart] on a broken stream. *)
Definition streamFailed (runId : string) (t : Tools) : Tools :=
  if String.eqb runId "" then t
  else {| buffer := setStatus runId failed (buffer t);
          activeStreams := activeStreams t ∖ {[runId]} |}.

(** One [handleStart] call: the run id learnt from the stream and whether
    the promise of the call is resolved. *)
Record StartCall : Type := mkCall {
  callRunId : string;
  callResolved : bool
}.

(** [{ run_id, estimated_cost, agents, status: 'running' }] *)
Record StartReply : Type := mkStart {
  startRunId : string;
  startEstimatedCost : Z;
  startAgents : Z
}.

(** An event that names a run: [evt.type === 'connection' && evt.run_id]. *)
Definition namesRun (evt : SSEEvent) : option string :=
  if String.eqb (type evt) "connection"
  then stringOrUndefined (lookupField "run_id" (props evt))
  else None.

(** The callback [handleStart] passes to [client.startStream], run on one
    decoded event; the third component is the answer the call resolves with,
    if it does at this event. *)
Definition onEvent (evt : SSEEvent) (st : StartCall * Tools) : StartCall * Tools * option StartReply :=
  let '(call, t) := st in
  let '(runId, t1) :=
    match namesRun evt with
    | Some r =>
        (r, {| buffer := createRun r (buffer t);
               activeStreams := {[r]} ∪ activeStreams t |})
    | None => (callRunId call, t)
    end in
  let t2 :=
    if String.eqb runId "" then t1
    else {| buffer := addEvent runId evt (buffer t1);
            activeStreams := activeStreams t1 |} in
  if negb (callResolved call) && negb (String.eqb runId "")
     && String.eqb (type evt) "agents_created"
  then
    ({| callRunId := runId; callResolved := true |}, t2,
     match getRunInfo runId (buffer t2) with
     | Some info =>
         Some {| startRunId := runId;
                 startEstimatedCost := infoEstimatedCost info;
                 startAgents := infoAgentsTotal info |}
     | None => None
     end)
  else ({| callRunId := runId; callResolved := callResolved call |}, t2, None).

(** The callback over the events of a stream, with the answers it resolved
    the call with. *)
Fixpoint onEvents (evts : list SSEEvent) (st : StartCall * Tools) : StartCall * Tools * list StartReply :=
  match evts with
  | [] => (st, [])
  | evt :: rest =>
      let '(st1, reply) := onEvent evt st in
      let '(st2, replies) := onEvents rest st1 in
      (st2, match reply with Some r => r :: replies | None => replies end)
  end.






(** [handlePoll] up to its [await]: the not-found answer, or the wait. *)
Definition handlePollWait (runId : string) (b : EventBuffer) : ToolReply (EventBuffer * option nat) :=
  if negb (has runId b)
  then ReplyError ("Run " +:+ runId
                   +:+ " not found. It may have been started in a previous session.")
  else ReplyOk (waitForEvents runId b).


(** [handleListRuns]: the message of the empty session, or the summaries. *)
Definition handleListRuns (order : list string) (b : EventBuffer) : list RunSummary * option string :=
  match listRuns order b with
  | [] => ([], Some "No Wisepanel deliberations in this session.")
  | l => (l, None)
  end.

(** A stream of events ingested into one run, on the buffer and on the run
    state. *)
Definition addEvents (runId : string) (evts : list SSEEvent) (b : EventBuffer) : EventBuffer :=
  fold_left (fun acc e => addEvent runId e acc) evts b.

Definition ingest (evts : list SSEEvent) (run : RunState) : RunState :=
  fold_left (fun acc e => applyEvent e (pushEvent e acc)) evts run.

(** ** The stream reader of [client.ts]

    The loop of [startStream] appends each decoded chunk to [buf], splits
    [buf] at blank lines, keeps the last part as the new [buf] and hands the
    data of every other part to [JSON.parse] (which is not modelled: the
    reader is taken up to the strings it parses). *)

Definition prependChar (c : ascii) (r : list string * string) : list string * string :=
  match r with
  | ([], rest) => ([], String c rest)
  | (p :: ps, rest) => (String c p :: ps, rest)
  end.

(** [parts = buf.split('\n\n'); buf = parts.pop() || ''] *)
Fixpoint splitFrames (s : string) : list string * string :=
  match s with
  | EmptyString => ([], EmptyString)
  | String c rest =>
      match rest with
      | String c' rest' =>
          if Ascii.eqb c LF && Ascii.eqb c' LF
          then let '(parts, last) := splitFrames rest' in
               (EmptyString :: parts, last)
          else prependChar c (splitFrames rest)
      | EmptyString => prependChar c (splitFrames rest)
      end
  end.

(** [part.split('\n')] *)
Fixpoint splitLines (s : string) : list string :=
  match s with
  | EmptyString => [EmptyString]
  | String c rest =>
      if Ascii.eqb c LF then EmptyString :: splitLines rest
      else match splitLines rest with
           | l :: ls => String c l :: ls
           | [] => [String c EmptyString]
           end
  end.

(** The data lines of some lines: those that start with ["data: "], without
    that prefix. *)
Definition dataLines (lines : list string) : list string :=
  map (dropString 6) (List.filter (String.prefix "data: ") lines).

(** [dataLines.join('')] for one part. *)
Definition frameData (part : string) : string :=
  String.concat "" (dataLines (splitLines part)).

(** One turn of the loop: the strings handed to [JSON.parse], in order, and
    the new [buf]. *)
Definition readChunk (buf chunk : string) : list string * string :=
  let '(parts, rest) := splitFrames (buf +:+ chunk) in
  (List.filter (fun data => negb (String.eqb data "")) (map frameData parts),
   rest).

(** A line: no line feed in it. *)
Fixpoint noLF (s : string) : bool :=
  match s with
  | EmptyString => true
  | String c rest => negb (Ascii.eqb c LF) && noLF rest
  end.

Definition isLine (s : string) : bool :=
  noLF s && negb (String.eqb s "").

(** A frame on the wire: its lines joined by line feeds, then a blank
    line. *)
Definition encodeFrame (lines : list string) : string :=
  String.concat (String LF EmptyString) lines
  +:+ String LF (String LF EmptyString).

Fixpoint encodeStream (frames : list (list string)) : string :=
  match frames with
  | [] => EmptyString
  | lines :: rest => encodeFrame lines +:+ encodeStream rest
  end.

(** The loop over the chunks of a stream, from the buffer [buf]. *)
Fixpoint readChunks (buf : string) (chunks : list string) : list string * string :=
  match chunks with
  | [] => ([], buf)
  | chunk :: rest =>
      let '(out, buf1) := readChunk buf chunk in
      let '(outs, buf2) := readChunks buf1 rest in
      (out ++ outs, buf2)
  end.

(** A blank line starts here. *)
Definition startsBreak (s : string) : bool :=
  match s with
  | String c (String c' _) => Ascii.eqb c LF && Ascii.eqb c' LF
  | _ => false
  end.

(** An interesting event waits at or beyond the cursor. *)
Definition hasPending (run : RunState) : Prop :=
  exists (i : nat) (e : SSEEvent),
    (lastPollIndex run <= i)%nat /\ events run !! i = Some e
    /\ isInteresting e = true.

(** The operations that move the cursor of a run or replace the run. *)
Definition consumes (runId : string) (op : Op) : bool :=
  match op with
  | OpCreateRun r | OpGetNewEvents r => String.eqb r runId
  | _ => false
  end.

(** * Properties *)

(** ** The registry under the coordinator's operations *)

Lemma runs_removeWaiter runId fn b :
  runs (removeWaiter runId fn b) = runs b.
Proof.
  unfold removeWaiter. destruct (waiters b !! runId) as [l|]; [|done].
  by destruct (spliceFirst fn l).
Qed.

Lemma heap_removeWaiter runId fn b :
  heap (removeWaiter runId fn b) = heap b.
Proof.
  unfold removeWaiter. destruct (waiters b !! runId) as [l|]; [|done].
  by destruct (spliceFirst fn l).
Qed.

Lemma runs_settle fn b : runs (settle fn b) = runs b.
Proof.
  unfold settle. destruct (heap b !! fn) as [w|]; [|done].
  destruct (settled w); [done|]. cbn. by rewrite runs_removeWaiter.
Qed.

Lemma runs_fold_settle l b :
  runs (fold_left (fun acc fn => settle fn acc) l b) = runs b.
Proof.
  revert b. induction l as [|fn l IH]; intros b; [done|].
  cbn. by rewrite IH, runs_settle.
Qed.

Lemma runs_notifyWaiters runId b : runs (notifyWaiters runId b) = runs b.
Proof.
  unfold notifyWaiters. destruct (waiters b !! runId) as [l|]; [|done].
  by rewrite runs_fold_settle.
Qed.

Lemma runs_timerFires fn b : runs (timerFires fn b) = runs b.
Proof.
  unfold timerFires. destruct (heap b !! fn) as [w|]; [|done].
  destruct (timerArmed w); [|done]. by rewrite runs_settle.
Qed.

Lemma runs_waitForEvents runId b : runs (fst (waitForEvents runId b)) = runs b.
Proof.
  unfold waitForEvents. destruct (runs b !! runId) as [run|]; [|done].
  by destruct (_ || _).
Qed.

(** What [addEvent] does to the registry: the run, if it exists, gets the
    event pushed and the [switch] applied; nothing else moves. *)
Lemma runs_addEvent runId event b :
  runs (addEvent runId event b) =
    match runs b !! runId with
    | Some run => <[runId := applyEvent event (pushEvent event run)]> (runs b)
    | None => runs b
    end.
Proof.
  unfold addEvent. destruct (runs b !! runId) as [run|]; [|done].
  destruct (_ || _); [|done]. by rewrite runs_notifyWaiters.
Qed.

Lemma runs_getNewEvents runId b :
  runs (fst (getNewEvents runId b)) =
    match runs b !! runId with
    | Some run => <[runId := setLastPollIndex (length (events run)) run]> (runs b)
    | None => runs b
    end.
Proof. unfold getNewEvents. by destruct (runs b !! runId). Qed.

Lemma runs_setStatus runId s b :
  runs (setStatus runId s b) =
    match runs b !! runId with
    | Some run => <[runId := setRunStatus s run]> (runs b)
    | None => runs b
    end.
Proof. unfold setStatus. by destruct (runs b !! runId). Qed.

Lemma seedTopic_fields v run :
  events (seedTopic v run) = events run
  /\ lastPollIndex (seedTopic v run) = lastPollIndex run
  /\ status (seedTopic v run) = status run
  /\ agentsTotal (seedTopic v run) = agentsTotal run
  /\ agentsResponded (seedTopic v run) = agentsResponded run
  /\ estimatedCost (seedTopic v run) = estimatedCost run
  /\ finalResult (seedTopic v run) = finalResult run.
Proof.
  unfold seedTopic. destruct v as [[| | |s| |]|]; try done.
  by destruct (String.eqb s "").
Qed.

(** The [switch] never touches the log or the cursor. *)
Lemma applyEvent_log event run :
  events (applyEvent event run) = events run
  /\ lastPollIndex (applyEvent event run) = lastPollIndex run.
Proof.
  unfold applyEvent.
  repeat match goal with
         | |- context [if String.eqb ?a ?b then _ else _] =>
             destruct (String.eqb a b)
         end;
    cbn;
    try done;
    try (split; [etrans; [apply seedTopic_fields|done]
                | etrans; [apply seedTopic_fields|done]]).
Qed.

Lemma events_applyEvent event run :
  events (applyEvent event run) = events run.
Proof. apply applyEvent_log. Qed.

Lemma lastPollIndex_applyEvent event run :
  lastPollIndex (applyEvent event run) = lastPollIndex run.
Proof. apply applyEvent_log. Qed.

Lemma Status_eqb_eq a b : Status_eqb a b = true <-> a = b.
Proof. destruct a, b; cbn; split; congruence. Qed.

Lemma has_true runId b : has runId b = true <-> is_Some (runs b !! runId).
Proof. unfold has. apply bool_decide_eq_true. Qed.

(** ** Per-run isolation *)

(** C10.  Every operation that takes a run id leaves the state of every run
    with another id as it was: its event log, cursor, status, counters, topic
    and final result (the whole [RunState] found under the other id) is the
    same before and after [createRun], [addEvent], [getNewEvents],
    [setStatus] and [waitForEvents]. *)
Theorem other_runs_untouched (runId other : string) (b : EventBuffer) :
  other <> runId ->
  runs (createRun runId b) !! other = runs b !! other
  /\ (forall event, runs (addEvent runId event b) !! other = runs b !! other)
  /\ runs (fst (getNewEvents runId b)) !! other = runs b !! other
  /\ (forall s, runs (setStatus runId s b) !! other = runs b !! other)
  /\ runs (fst (waitForEvents runId b)) !! other = runs b !! other.
Proof.
  intros Hne. repeat split.
  - cbn. by rewrite lookup_insert_ne.
  - intros event. rewrite runs_addEvent.
    destruct (runs b !! runId); [by rewrite lookup_insert_ne|done].
  - rewrite runs_getNewEvents.
    destruct (runs b !! runId); [by rewrite lookup_insert_ne|done].
  - intros s. rewrite runs_setStatus.
    destruct (runs b !! runId); [by rewrite lookup_insert_ne|done].
  - by rewrite runs_waitForEvents.
Qed.

Lemma other_runs_untouched_witness :
  "R2" <> "R1"
  /\ runs (createRun "R1" sampleBuffer) !! "R2" = runs sampleBuffer !! "R2"
  /\ (forall event,
         runs (addEvent "R1" event sampleBuffer) !! "R2" = runs sampleBuffer !! "R2")
  /\ runs (fst (getNewEvents "R1" sampleBuffer)) !! "R2" = runs sampleBuffer !! "R2"
  /\ (forall s, runs (setStatus "R1" s sampleBuffer) !! "R2" = runs sampleBuffer !! "R2")
  /\ runs (fst (waitForEvents "R1" sampleBuffer)) !! "R2" = runs sampleBuffer !! "R2".
Proof.
  split; [discriminate|].
  apply (other_runs_untouched "R1" "R2" sampleBuffer). discriminate.
Defined.

(** ** Creating a run *)

(** C2, as the code has it.  [createRun] installs the empty state
    unconditionally.  Calling it twice in a row leaves the buffer as calling
    it once does; the run found under the id afterwards is always the empty
    one, whatever the id held before, and the waiters are not touched. *)
Theorem createRun_twice_is_once (runId : string) (b : EventBuffer) :
  createRun runId (createRun runId b) = createRun runId b
  /\ runs (createRun runId b) !! runId = Some newRun
  /\ waiters (createRun runId b) = waiters b
  /\ heap (createRun runId b) = heap b.
Proof.
  unfold createRun, withRuns; cbn. repeat split.
  - by rewrite insert_insert_eq.
  - by rewrite lookup_insert_eq.
Qed.

(** C2, as stated, fails: a second [createRun] for an id whose run already
    logged an event wipes the log and the responded counter. *)
Lemma createRun_again_resets_run :
  let b := addEvent "R1" sampleResponse (createRun "R1" emptyBuffer) in
  (events <$> runs b !! "R1") = Some [sampleResponse]
  /\ (agentsResponded <$> runs b !! "R1") = Some 1
  /\ (events <$> runs (createRun "R1" b) !! "R1") = Some []
  /\ (agentsResponded <$> runs (createRun "R1" b) !! "R1") = Some 0
  /\ runs (createRun "R1" b) !! "R1" <> runs b !! "R1".
Proof.
  assert (Hb : runs (addEvent "R1" sampleResponse (createRun "R1" emptyBuffer)) !! "R1"
               = Some (applyEvent sampleResponse (pushEvent sampleResponse newRun))).
  { rewrite runs_addEvent. cbn. rewrite lookup_insert_eq. by rewrite lookup_insert_eq. }
  cbv zeta. rewrite Hb. cbn. rewrite lookup_insert_eq.
  repeat split; discriminate.
Qed.

(** ** Waiting: the immediate return *)

Lemma hasNew_spec (run : RunState) :
  existsb isInteresting (pending run) = true <->
  exists (i : nat) (e : SSEEvent),
    (lastPollIndex run <= i)%nat /\ events run !! i = Some e
    /\ isInteresting e = true.
Proof.
  unfold pending. rewrite existsb_exists. split.
  - intros (e & Hin & He). apply list_elem_of_In, list_elem_of_lookup in Hin.
    destruct Hin as [j Hj]. rewrite lookup_drop in Hj.
    exists (lastPollIndex run + j)%nat, e. split; [lia|done].
  - intros (i & e & Hle & Hi & He). exists e. split; [|done].
    apply list_elem_of_In, list_elem_of_lookup.
    exists (i - lastPollIndex run)%nat. rewrite lookup_drop.
    by replace (lastPollIndex run + (i - lastPollIndex run))%nat with i by lia.
Qed.

(** C4.  [waitForEvents] returns an already resolved promise exactly when
    the run is unknown, or its status is not [running], or some interesting
    event sits at or beyond the read cursor; in that case the buffer is left
    as it was (no waiter is registered).  Otherwise a fresh waiter is
    allocated, armed and put on the run's registration list.  In
    particular the call on a missing run id resolves at once. *)
Theorem waitForEvents_immediate_iff (runId : string) (b : EventBuffer) :
  (snd (waitForEvents runId b) = None <->
     runs b !! runId = None
     \/ exists run, runs b !! runId = Some run
          /\ (status run <> running
              \/ exists (i : nat) (e : SSEEvent),
                   (lastPollIndex run <= i)%nat /\ events run !! i = Some e
                   /\ isInteresting e = true))
  /\ (snd (waitForEvents runId b) = None -> fst (waitForEvents runId b) = b)
  /\ (forall fn, snd (waitForEvents runId b) = Some fn ->
        fn = length (heap b)
        /\ heap (fst (waitForEvents runId b)) !! fn
           = Some {| waiterRun := runId; settled := false;
                     timerArmed := true; resolveCalls := 0 |}
        /\ waiters (fst (waitForEvents runId b)) !! runId
           = Some (default [] (waiters b !! runId) ++ [fn]))
  /\ waitForEvents "missing-run" emptyBuffer = (emptyBuffer, None).
Proof.
  unfold waitForEvents. split; [split|split; [|split]].
  - destruct (runs b !! runId) as [run|] eqn:Hrun; [|by left].
    destruct (existsb isInteresting (pending run)) eqn:Hnew; cbn.
    + intros _. right. exists run. split; [done|]. right. by apply hasNew_spec.
    + destruct (Status_eqb (status run) running) eqn:Hst; cbn; [done|].
      intros _. right. exists run. split; [done|]. left.
      intros Heq. apply Status_eqb_eq in Heq. congruence.
  - intros [Hnone | (run & Hrun & Hcase)]; [by rewrite Hnone|].
    rewrite Hrun. destruct Hcase as [Hst | Hnew].
    + destruct (Status_eqb (status run) running) eqn:Heq.
      * apply Status_eqb_eq in Heq. done.
      * by rewrite orb_true_r.
    + apply hasNew_spec in Hnew. by rewrite Hnew.
  - destruct (runs b !! runId) as [run|]; [|done].
    by destruct (_ || _).
  - intros fn. destruct (runs b !! runId) as [run|]; [|done].
    destruct (_ || _); [done|]. cbn. intros [= <-].
    split; [done|]. split.
    + by rewrite lookup_app_r, Nat.sub_diag.
    + by rewrite lookup_insert_eq.
  - done.
Qed.

(** ** The scenario of the first poll *)

Lemma addEvent_lookup runId event b run :
  runs b !! runId = Some run ->
  runs (addEvent runId event b) !! runId
  = Some (applyEvent event (pushEvent event run)).
Proof. intros H. rewrite runs_addEvent, H. apply lookup_insert_eq. Qed.

Lemma scenarioStart_run b0 :
  runs (scenarioStart b0) !! "R1"
  = Some {| events := [connectionEvent "R1" "X"; agentsCreatedEvent 4];
            lastPollIndex := 0; status := running;
            agentsTotal := 4; agentsResponded := 0; estimatedCost := 0;
            finalResult := None; topic := "X" |}.
Proof.
  unfold scenarioStart.
  erewrite addEvent_lookup;
    [|erewrite addEvent_lookup; [reflexivity|apply lookup_insert_eq]].
  reflexivity.
Qed.

Lemma scenarioPolled_run b0 p1 p2 p3 p4 :
  runs (scenarioPolled b0 p1 p2 p3 p4) !! "R1"
  = Some {| events := [connectionEvent "R1" "X"; agentsCreatedEvent 4;
                       agentResponseEvent p1; agentResponseEvent p2;
                       agentResponseEvent p3; agentResponseEvent p4];
            lastPollIndex := 0; status := running;
            agentsTotal := 4; agentsResponded := 4; estimatedCost := 0;
            finalResult := None; topic := "X" |}.
Proof.
  unfold scenarioPolled.
  pose proof (scenarioStart_run b0) as H0.
  pose proof (addEvent_lookup "R1" (agentResponseEvent p1) _ _ H0) as H1.
  pose proof (addEvent_lookup "R1" (agentResponseEvent p2) _ _ H1) as H2.
  pose proof (addEvent_lookup "R1" (agentResponseEvent p3) _ _ H2) as H3.
  pose proof (addEvent_lookup "R1" (agentResponseEvent p4) _ _ H3) as H4.
  rewrite H4. reflexivity.
Qed.

(** C5, as the code has it.  After create, connection and
    [agents_created] with count 4, [getRunInfo] reports [agentsTotal] 4;
    after four [agent_response] events the poll reports [agentsResponded] 4
    and hands out exactly five events in insertion order: the
    [agents_created] event and the four responses.  The connection event
    stays in the log but is not of an interesting type and is not handed
    out. *)
Theorem scenario_first_poll (b0 : EventBuffer) (p1 p2 p3 p4 : list (string * JValue)) :
  (infoAgentsTotal <$> getRunInfo "R1" (scenarioStart b0)) = Some 4
  /\ snd (getNewEvents "R1" (scenarioPolled b0 p1 p2 p3 p4))
     = Some {| pollStatus := running;
               newEvents := [agentsCreatedEvent 4;
                             agentResponseEvent p1; agentResponseEvent p2;
                             agentResponseEvent p3; agentResponseEvent p4];
               pollAgentsResponded := 4;
               pollAgentsTotal := 4 |}
  /\ (events <$> runs (scenarioPolled b0 p1 p2 p3 p4) !! "R1")
     = Some [connectionEvent "R1" "X"; agentsCreatedEvent 4;
             agentResponseEvent p1; agentResponseEvent p2;
             agentResponseEvent p3; agentResponseEvent p4]
  /\ isInteresting (connectionEvent "R1" "X") = false.
Proof.
  split; [|split; [|split]].
  - unfold getRunInfo. by rewrite scenarioStart_run.
  - unfold getNewEvents. by rewrite scenarioPolled_run.
  - by rewrite scenarioPolled_run.
  - reflexivity.
Qed.

(** C5, as stated, fails on the connection event: the poll of the scenario
    does hand out five events, but the connection event is not among them
    and its type is not in the interesting set. *)
Lemma scenario_connection_not_interesting :
  exists res,
    snd (getNewEvents "R1" (scenarioPolled emptyBuffer [] [] [] [])) = Some res
    /\ length (newEvents res) = 5%nat
    /\ interesting "connection" = false
    /\ ~ In (connectionEvent "R1" "X") (newEvents res).
Proof.
  eexists. split.
  - unfold getNewEvents. rewrite scenarioPolled_run. reflexivity.
  - cbn. split; [done|]. split; [done|].
    intros H. repeat (destruct H as [H|H]; [discriminate H|]). done.
Qed.

(** ** The read cursor *)

Lemma step_other_run op runId b :
  opRun op <> Some runId ->
  runs (step op b) !! runId = runs b !! runId.
Proof.
  intros Hne.
  assert (Hr : forall r, opRun op = Some r -> r <> runId) by (intros r Hr; congruence).
  destruct op as [r|r e|r|fn|r|r s]; cbn in *.
  - rewrite lookup_insert_ne; [done|]. by apply Hr.
  - rewrite runs_addEvent. destruct (runs b !! r); [|done].
    rewrite lookup_insert_ne; [done|]. by apply Hr.
  - by rewrite runs_waitForEvents.
  - by rewrite runs_timerFires.
  - rewrite runs_getNewEvents. destruct (runs b !! r); [|done].
    rewrite lookup_insert_ne; [done|]. by apply Hr.
  - rewrite runs_setStatus. destruct (runs b !! r); [|done].
    rewrite lookup_insert_ne; [done|]. by apply Hr.
Qed.

Lemma observe_other_run op runId b h :
  opRun op <> Some runId -> observe runId op b h = h.
Proof.
  intros Hne. destruct op as [r|r e|r|fn|r|r s]; cbn in *; try done.
  all: destruct (String.eqb_spec r runId) as [->|]; [congruence|done].
Qed.

Lemma cursorInv_step runId op b h :
  cursorInv runId b h -> cursorInv runId (step op b) (observe runId op b h).
Proof.
  intros (run & Hrun & Hlog & Hle & Hdel).
  destruct (decide (opRun op = Some runId)) as [Hop|Hop].
  2:{ rewrite observe_other_run by done. exists run.
      by rewrite step_other_run. }
  destruct op as [r|r e|r|fn|r|r s]; cbn in Hop; try discriminate;
    injection Hop as ->; cbn [step observe]; rewrite ?String.eqb_refl.
  - (* createRun *)
    exists newRun. cbn. by rewrite lookup_insert_eq.
  - (* addEvent *)
    assert (Hhas : has runId b = true) by (apply has_true; eauto).
    rewrite Hhas. cbn [andb].
    exists (applyEvent e (pushEvent e run)).
    rewrite (addEvent_lookup _ _ _ _ Hrun).
    rewrite events_applyEvent, lastPollIndex_applyEvent. cbn.
    split; [done|]. split; [by rewrite Hlog|].
    split; [rewrite length_app; lia|].
    by rewrite take_app_le.
  - (* waitForEvents *)
    exists run. by rewrite runs_waitForEvents.
  - (* getNewEvents *)
    exists (setLastPollIndex (length (events run)) run).
    rewrite runs_getNewEvents. unfold getNewEvents. rewrite Hrun.
    rewrite lookup_insert_eq. cbn [snd newEvents delivered appended
      events lastPollIndex setLastPollIndex].
    split; [done|]. split; [done|]. split; [lia|].
    rewrite Hdel. unfold pending. rewrite <- filter_app, take_drop.
    by rewrite firstn_all.
  - (* setStatus *)
    exists (setRunStatus s run). rewrite runs_setStatus, Hrun.
    by rewrite lookup_insert_eq.
Qed.

Lemma runOps_cons op ops b : runOps (op :: ops) b = runOps ops (step op b).
Proof. done. Qed.

Lemma runOps_snoc ops op b : runOps (ops ++ [op]) b = step op (runOps ops b).
Proof. unfold runOps. by rewrite fold_left_app. Qed.

Lemma cursorInv_runOps runId ops b h :
  cursorInv runId b h ->
  cursorInv runId (runOps ops b) (historyOf runId ops b h).
Proof.
  revert b h. induction ops as [|op ops IH]; intros b h Hinv; [done|].
  cbn [historyOf]. rewrite runOps_cons. by apply IH, cursorInv_step.
Qed.

(** C1.  Take a run from its creation through any sequence of operations
    (on any run ids, polls, waits, timeouts and status overrides included).
    The events handed out by its successive [getNewEvents] calls, put end to
    end, are exactly the interesting events of the log below the cursor, in
    log order, and the log is exactly what [addEvent] appended, in that
    order: each log position is handed out by one call at most, so no event is
    returned twice.  Right after a [getNewEvents] call the cursor equals the
    log length. *)
Theorem cursor_delivers_in_order_once (runId : string) (b0 : EventBuffer) (ops : list Op) :
  let b := runOps ops (createRun runId b0) in
  let h := historyOf runId ops (createRun runId b0) noHistory in
  exists run,
    runs b !! runId = Some run
    /\ events run = appended h
    /\ (lastPollIndex run <= length (events run))%nat
    /\ delivered h
       = filter (fun e => isInteresting e = true)
                (take (lastPollIndex run) (events run))
    /\ (forall ops', ops = ops' ++ [OpGetNewEvents runId] ->
          lastPollIndex run = length (events run)).
Proof.
  intros b h.
  assert (Hinv : cursorInv runId b h).
  { apply cursorInv_runOps. exists newRun. cbn. by rewrite lookup_insert_eq. }
  destruct Hinv as (run & Hrun & Hlog & Hle & Hdel).
  exists run. repeat (split; [done|]).
  intros ops' ->. subst b. rewrite runOps_snoc in Hrun. cbn in Hrun.
  rewrite runs_getNewEvents in Hrun.
  destruct (runs (runOps ops' (createRun runId b0)) !! runId) as [run0|] eqn:H0.
  - rewrite lookup_insert_eq in Hrun. by injection Hrun as <-.
  - congruence.
Qed.

(** ** The log only grows *)

Lemma cursorsOk_step op b : cursorsOk b -> cursorsOk (step op b).
Proof.
  intros Hok runId run'.
  destruct (decide (opRun op = Some runId)) as [Hop|Hop].
  2:{ rewrite step_other_run by done. apply Hok. }
  destruct op as [r|r e|r|fn|r|r s]; cbn in Hop; try discriminate;
    injection Hop as ->; cbn [step].
  - cbn. rewrite lookup_insert_eq. intros [= <-]. cbn. lia.
  - rewrite runs_addEvent.
    destruct (runs b !! runId) as [run|] eqn:Hrun; [|by rewrite Hrun].
    rewrite lookup_insert_eq. intros [= <-].
    rewrite events_applyEvent, lastPollIndex_applyEvent. cbn.
    rewrite length_app. specialize (Hok _ _ Hrun). lia.
  - rewrite runs_waitForEvents. apply Hok.
  - rewrite runs_getNewEvents.
    destruct (runs b !! runId) as [run|] eqn:Hrun; [|by rewrite Hrun].
    rewrite lookup_insert_eq. intros [= <-]. cbn. lia.
  - rewrite runs_setStatus.
    destruct (runs b !! runId) as [run|] eqn:Hrun; [|by rewrite Hrun].
    rewrite lookup_insert_eq. intros [= <-]. cbn. by apply (Hok runId).
Qed.

Lemma cursorsOk_runOps ops b : cursorsOk b -> cursorsOk (runOps ops b).
Proof.
  revert b. induction ops as [|op ops IH]; intros b Hok; [done|].
  rewrite runOps_cons. by apply IH, cursorsOk_step.
Qed.

(** Any operation but a repeated [createRun] keeps the run and extends its
    log at the end. *)
Lemma log_prefix_step op runId b run :
  runs b !! runId = Some run ->
  op <> OpCreateRun runId ->
  exists run', runs (step op b) !! runId = Some run'
               /\ events run `prefix_of` events run'.
Proof.
  intros Hrun Hop.
  destruct (decide (opRun op = Some runId)) as [Heq|Hne].
  2:{ exists run. by rewrite step_other_run. }
  destruct op as [r|r e|r|fn|r|r s]; cbn in Heq; try discriminate;
    injection Heq as ->; cbn [step].
  - congruence.
  - exists (applyEvent e (pushEvent e run)).
    rewrite (addEvent_lookup _ _ _ _ Hrun), events_applyEvent. cbn.
    split; [done|]. by apply prefix_app_r.
  - exists run. by rewrite runs_waitForEvents.
  - exists (setLastPollIndex (length (events run)) run).
    by rewrite runs_getNewEvents, Hrun, lookup_insert_eq.
  - exists (setRunStatus s run).
    by rewrite runs_setStatus, Hrun, lookup_insert_eq.
Qed.

Lemma log_prefix_runOps ops runId b run :
  runs b !! runId = Some run ->
  OpCreateRun runId ∉ ops ->
  exists run', runs (runOps ops b) !! runId = Some run'
               /\ events run `prefix_of` events run'.
Proof.
  revert b run. induction ops as [|op ops IH]; intros b run Hrun Hnot.
  - by exists run.
  - apply not_elem_of_cons in Hnot as [Hop Hnot].
    destruct (log_prefix_step op runId b run Hrun) as (run1 & Hrun1 & Hpre1);
      [done|].
    destruct (IH _ _ Hrun1 Hnot) as (run' & Hrun' & Hpre').
    exists run'. rewrite runOps_cons. split; [done|]. by etrans.
Qed.

(** C6, as the code has it.  In every state reached from the empty buffer
    the cursor of every run is within its log.  [addEvent] on an existing
    run extends its log by exactly that event.  Through any later sequence of
    operations that does not create the same id again, the run stays and
    every event logged so far keeps its position and content.  (A repeated
    [createRun] for the id is the one operation that discards the log.) *)
Theorem log_append_only (ops : list Op) :
  let b := runOps ops emptyBuffer in
  (forall runId run,
      runs b !! runId = Some run ->
      (lastPollIndex run <= length (events run))%nat)
  /\ (forall runId run event,
        runs b !! runId = Some run ->
        (events <$> runs (addEvent runId event b) !! runId)
        = Some (events run ++ [event]))
  /\ (forall runId run later,
        runs b !! runId = Some run ->
        OpCreateRun runId ∉ later ->
        exists run',
          runs (runOps later b) !! runId = Some run'
          /\ (length (events run) <= length (events run'))%nat
          /\ forall (i : nat) (e : SSEEvent),
               events run !! i = Some e -> events run' !! i = Some e).
Proof.
  intros b. split; [|split].
  - apply cursorsOk_runOps. intros runId run. unfold emptyBuffer; cbn.
    by rewrite lookup_empty.
  - intros runId run event Hrun.
    rewrite (addEvent_lookup _ _ _ _ Hrun). cbn.
    by rewrite events_applyEvent.
  - intros runId run later Hrun Hnot.
    destruct (log_prefix_runOps later runId b run Hrun Hnot)
      as (run' & Hrun' & Hpre).
    exists run'. split; [done|]. split.
    + by apply prefix_length.
    + intros i e Hi. by eapply prefix_lookup_Some.
Qed.

(** C6, as stated, fails for the sequence create, add, create: the event
    logged at position 0 is gone after the second [createRun]. *)
Lemma createRun_again_discards_log :
  let ops := [OpCreateRun "R1"; OpAddEvent "R1" sampleResponse] in
  (events <$> runs (runOps ops emptyBuffer) !! "R1") = Some [sampleResponse]
  /\ (events <$> runs (runOps (ops ++ [OpCreateRun "R1"]) emptyBuffer) !! "R1")
     = Some [].
Proof.
  cbv zeta. split.
  - cbn. rewrite (addEvent_lookup _ _ _ newRun); [done|].
    cbn. by rewrite lookup_insert_eq.
  - cbn. by rewrite lookup_insert_eq.
Qed.

(** ** Status transitions *)

Ltac case_type event :=
  repeat match goal with
         | |- context [String.eqb (type event) ?s] =>
             destruct (String.eqb_spec (type event) s)
         end.

(** What the [switch] does to the status and the counters. *)
Lemma applyEvent_effects event run :
  (type event = "final" -> status (applyEvent event run) = finalStatus event)
  /\ (type event = "error" -> status (applyEvent event run) = failed)
  /\ (type event = "cancelled" -> status (applyEvent event run) = canceled)
  /\ (type event <> "final" -> type event <> "error" ->
      type event <> "cancelled" ->
      status (applyEvent event run) = status run)
  /\ (type event = "agent_response" ->
      agentsResponded (applyEvent event run) = agentsResponded run + 1)
  /\ (type event = "agents_created" ->
      agentsTotal (applyEvent event run)
      = numberNullish (lookupField "count" (props event)) 0)
  /\ (type event = "cost_estimation" ->
      estimatedCost (applyEvent event run)
      = numberNullish (lookupField "estimated_cost" (props event)) 0).
Proof.
  unfold applyEvent.
  repeat split; intros; case_type event; try congruence; cbn;
    try reflexivity;
    repeat match goal with
           | |- context [if ?c then _ else _] => destruct c
           end;
    try reflexivity;
    try (etrans; [apply seedTopic_fields|reflexivity]).
Qed.

(** No event makes a run [running]. *)
Lemma applyEvent_not_running event run :
  status run <> running -> status (applyEvent event run) <> running.
Proof.
  intros Hst.
  destruct (applyEvent_effects event run) as (Hf & He & Hc & Ho & _).
  destruct (String.eqb_spec (type event) "final") as [H1|H1].
  { rewrite (Hf H1). unfold finalStatus.
    destruct (lookupField "status" (props event)) as [[| | |s| |]|]; try done.
    by destruct (String.eqb s "canceled"). }
  destruct (String.eqb_spec (type event) "error") as [H2|H2].
  { by rewrite (He H2). }
  destruct (String.eqb_spec (type event) "cancelled") as [H3|H3].
  { by rewrite (Hc H3). }
  by rewrite Ho.
Qed.

Lemma terminal_step op runId b run :
  runs b !! runId = Some run ->
  status run <> running ->
  revives runId op = false ->
  exists run', runs (step op b) !! runId = Some run'
               /\ status run' <> running.
Proof.
  intros Hrun Hst Hop.
  destruct (decide (opRun op = Some runId)) as [Heq|Hne].
  2:{ exists run. by rewrite step_other_run. }
  destruct op as [r|r e|r|fn|r|r s]; cbn in Heq; try discriminate;
    injection Heq as ->; cbn [step].
  - cbn in Hop. by rewrite String.eqb_refl in Hop.
  - exists (applyEvent e (pushEvent e run)).
    rewrite (addEvent_lookup _ _ _ _ Hrun). split; [done|].
    by apply applyEvent_not_running.
  - exists run. by rewrite runs_waitForEvents.
  - exists (setLastPollIndex (length (events run)) run).
    by rewrite runs_getNewEvents, Hrun, lookup_insert_eq.
  - exists (setRunStatus s run).
    rewrite runs_setStatus, Hrun, lookup_insert_eq. split; [done|].
    cbn. destruct s; try done. cbn in Hop. by rewrite String.eqb_refl in Hop.
Qed.

Lemma terminal_runOps ops runId b run :
  runs b !! runId = Some run ->
  status run <> running ->
  forallb (fun op => negb (revives runId op)) ops = true ->
  exists run', runs (runOps ops b) !! runId = Some run'
               /\ status run' <> running.
Proof.
  revert b run. induction ops as [|op ops IH]; intros b run Hrun Hst Hops.
  - by exists run.
  - cbn in Hops. apply andb_true_iff in Hops as [Hop Hops].
    apply negb_true_iff in Hop.
    destruct (terminal_step op runId b run Hrun Hst Hop) as (run1 & H1 & Hst1).
    rewrite runOps_cons. by apply (IH _ run1).
Qed.

(** C7, as the code has it.  Once a run has left [running], no ingested
    event, poll, wait or timeout puts it back to [running] (only creating the
    id again or the override to [running] would).  It may still move from
    one terminal status to another: an [error] event sets [failed], a
    [cancelled] event sets [canceled], a [final] event sets [completed] or
    [canceled], whatever the status was, and [setStatus] installs the status
    it is given over any current one.  Events ingested after a terminal
    status are appended to the log and update the counters as before. *)
Theorem status_never_back_to_running
    (runId : string) (b : EventBuffer) (run : RunState) (ops : list Op) :
  runs b !! runId = Some run ->
  status run <> running ->
  forallb (fun op => negb (revives runId op)) ops = true ->
  (exists run', runs (runOps ops b) !! runId = Some run'
                /\ status run' <> running)
  /\ (forall event,
        exists run',
          runs (addEvent runId event b) !! runId = Some run'
          /\ events run' = events run ++ [event]
          /\ status run' <> running
          /\ (type event = "final" -> status run' = finalStatus event)
          /\ (type event = "error" -> status run' = failed)
          /\ (type event = "cancelled" -> status run' = canceled)
          /\ (type event <> "final" -> type event <> "error" ->
              type event <> "cancelled" -> status run' = status run)
          /\ (type event = "agent_response" ->
              agentsResponded run' = agentsResponded run + 1)
          /\ (type event = "agents_created" ->
              agentsTotal run'
              = numberNullish (lookupField "count" (props event)) 0)
          /\ (type event = "cost_estimation" ->
              estimatedCost run'
              = numberNullish (lookupField "estimated_cost" (props event)) 0))
  /\ (forall s, (status <$> runs (setStatus runId s b) !! runId) = Some s).
Proof.
  intros Hrun Hst Hops. split; [|split].
  - by apply (terminal_runOps ops runId b run).
  - intros event. exists (applyEvent event (pushEvent event run)).
    rewrite (addEvent_lookup _ _ _ _ Hrun), events_applyEvent.
    split; [done|]. split; [done|].
    split; [by apply applyEvent_not_running|].
    apply (applyEvent_effects event (pushEvent event run)).
  - intros s. by rewrite runs_setStatus, Hrun, lookup_insert_eq.
Qed.

Lemma completedBuffer_run :
  runs completedBuffer !! "R1"
  = Some {| events := [finalEvent [("status", JStr "completed")]];
            lastPollIndex := 0; status := completed;
            agentsTotal := 0; agentsResponded := 0; estimatedCost := 0;
            finalResult := Some (finalEvent [("status", JStr "completed")]);
            topic := "" |}.
Proof.
  unfold completedBuffer.
  rewrite (addEvent_lookup _ _ _ newRun); [done|].
  cbn. by rewrite lookup_insert_eq.
Qed.

Lemma status_never_back_to_running_witness :
  exists run',
    runs (runOps [OpAddEvent "R1" sampleResponse; OpGetNewEvents "R1";
                  OpAddEvent "R1" errorEvent; OpSetStatus "R1" canceled]
                 completedBuffer) !! "R1" = Some run'
    /\ status run' <> running.
Proof.
  refine (proj1 (status_never_back_to_running "R1" completedBuffer _ _
                   completedBuffer_run _ _)).
  - discriminate.
  - reflexivity.
Defined.

(** C7, as stated, fails: a run that is [completed] becomes [failed] when an
    [error] event is ingested afterwards, and the explicit cancel overrides
    the [completed] status as well. *)
Lemma completed_run_changes_status :
  (status <$> runs completedBuffer !! "R1") = Some completed
  /\ (status <$> runs (addEvent "R1" errorEvent completedBuffer) !! "R1")
     = Some failed
  /\ (status <$> runs (setStatus "R1" canceled completedBuffer) !! "R1")
     = Some canceled.
Proof.
  split; [|split].
  - by rewrite completedBuffer_run.
  - by rewrite (addEvent_lookup _ _ _ _ completedBuffer_run).
  - by rewrite runs_setStatus, completedBuffer_run, lookup_insert_eq.
Qed.

(** ** The waiter coordinator *)

Lemma spliceFirst_elem fn l x :
  NoDup l -> x ∈ spliceFirst fn l <-> x ∈ l /\ x <> fn.
Proof.
  induction l as [|y l IH]; intros Hnd; cbn.
  - rewrite elem_of_nil. tauto.
  - apply NoDup_cons in Hnd as [Hy Hnd].
    destruct (Nat.eqb_spec y fn) as [->|Hne].
    + rewrite elem_of_cons. split.
      * intros Hx. split; [by right|]. by intros ->.
      * intros [[->|Hx] Hne]; done.
    + rewrite !elem_of_cons, IH by done. split.
      * intros [->|[Hx Hxne]]; [by split; [left|]|by split; [right|]].
      * intros [[->|Hx] Hxne]; [by left|by right].
Qed.

Lemma spliceFirst_NoDup fn l : NoDup l -> NoDup (spliceFirst fn l).
Proof.
  induction l as [|y l IH]; intros Hnd; cbn; [done|].
  pose proof Hnd as Hnd'. apply NoDup_cons in Hnd as [Hy Hnd].
  destruct (Nat.eqb_spec y fn); [done|].
  apply NoDup_cons. split; [|by apply IH].
  rewrite spliceFirst_elem by done. tauto.
Qed.

Lemma waiters_removeWaiter runId fn b :
  waiters (removeWaiter runId fn b) =
    match waiters b !! runId with
    | None => waiters b
    | Some l =>
        match spliceFirst fn l with
        | [] => delete runId (waiters b)
        | l' => <[runId := l']> (waiters b)
        end
    end.
Proof.
  unfold removeWaiter. destruct (waiters b !! runId) as [l|]; [|done].
  by destruct (spliceFirst fn l).
Qed.

Lemma removeWaiter_withHeap runId fn b h :
  removeWaiter runId fn (withHeap b h) = withHeap (removeWaiter runId fn b) h.
Proof.
  unfold removeWaiter. cbn. destruct (waiters b !! runId) as [l|]; [|done].
  by destruct (spliceFirst fn l).
Qed.

Lemma removeWaiter_unregistered runId fn b :
  waiters b !! runId = None -> removeWaiter runId fn b = b.
Proof. unfold removeWaiter. by intros ->. Qed.

(** The effective call of [settle]. *)
Lemma settle_unsettled fn b w :
  heap b !! fn = Some w ->
  settled w = false ->
  settle fn b
  = withHeap (removeWaiter (waiterRun w) fn b) (<[fn := woken w]> (heap b)).
Proof.
  intros Hw Hs. unfold settle. rewrite Hw, Hs.
  rewrite removeWaiter_withHeap. cbn.
  by rewrite list_insert_insert_eq.
Qed.

(** Any further call returns at the guard [if (settled) return]. *)
Lemma settle_settled fn b w :
  heap b !! fn = Some w -> settled w = true -> settle fn b = b.
Proof. intros Hw Hs. unfold settle. by rewrite Hw, Hs. Qed.

(** A timer that was cleared, or that has fired, does nothing. *)
Lemma timerFires_disarmed fn b w :
  heap b !! fn = Some w -> timerArmed w = false -> timerFires fn b = b.
Proof. intros Hw Ha. unfold timerFires. by rewrite Hw, Ha. Qed.

Lemma timerFires_unsettled fn b w :
  heap b !! fn = Some w ->
  settled w = false ->
  timerArmed w = true ->
  timerFires fn b
  = withHeap (removeWaiter (waiterRun w) fn b) (<[fn := woken w]> (heap b)).
Proof.
  intros Hw Hs Ha. unfold timerFires. rewrite Hw, Ha.
  set (w1 := {| waiterRun := waiterRun w; settled := settled w;
                timerArmed := false; resolveCalls := resolveCalls w |}).
  rewrite (settle_unsettled fn _ w1).
  - rewrite removeWaiter_withHeap. cbn.
    by rewrite list_insert_insert_eq.
  - cbn. apply list_lookup_insert_eq. by eapply lookup_lt_Some.
  - done.
Qed.

(** The callbacks of one notification, run on a buffer where the run id has
    no registration list left. *)
Lemma fold_settle_cleared copy runId b :
  waiters b !! runId = None ->
  NoDup copy ->
  (forall fn, fn ∈ copy ->
     exists w, heap b !! fn = Some w /\ waiterRun w = runId /\ settled w = false) ->
  let b' := fold_left (fun acc fn => settle fn acc) copy b in
  waiters b' = waiters b
  /\ runs b' = runs b
  /\ forall fn, heap b' !! fn
                = if decide (fn ∈ copy) then woken <$> heap b !! fn
                  else heap b !! fn.
Proof.
  revert b. induction copy as [|fn copy IH]; intros b Hnone Hnd Hmem; cbn.
  - repeat split.
  - apply NoDup_cons in Hnd as [Hfn Hnd].
    destruct (Hmem fn) as (w & Hw & Hr & Hs); [by left|].
    assert (Hset : settle fn b = withHeap b (<[fn := woken w]> (heap b))).
    { rewrite (settle_unsettled fn b w Hw Hs), Hr.
      by rewrite removeWaiter_unregistered. }
    rewrite Hset.
    destruct (IH (withHeap b (<[fn := woken w]> (heap b)))) as (Hw' & Hr' & Hh');
      [done|done| |].
    { intros fn' Hin. destruct (Hmem fn') as (w' & Hw1 & Hr1 & Hs1); [by right|].
      exists w'. cbn. rewrite list_lookup_insert_ne; [done|].
      intros ->. done. }
    split; [done|]. split; [done|].
    intros x. rewrite Hh'. cbn.
    destruct (decide (x = fn)) as [->|Hne].
    + rewrite decide_False by done.
      rewrite decide_True by (by left).
      rewrite list_lookup_insert_eq by (by eapply lookup_lt_Some).
      by rewrite Hw.
    + rewrite list_lookup_insert_ne by done.
      destruct (decide (x ∈ copy)) as [Hin|Hnin].
      * by rewrite decide_True by (by right).
      * rewrite decide_False; [done|].
        intros [?|?]%elem_of_cons; done.
Qed.

Lemma waitersInv_ext b1 b2 :
  waiters b1 = waiters b2 -> heap b1 = heap b2 ->
  waitersInv b1 -> waitersInv b2.
Proof.
  unfold waitersInv, heapOk, registrationsOk, pendingRegistered.
  intros <- <-. done.
Qed.

Lemma notifyWaiters_unregistered runId b :
  waiters b !! runId = None -> notifyWaiters runId b = b.
Proof. unfold notifyWaiters. by intros ->. Qed.

Lemma notifyWaiters_registered runId b l :
  registrationsOk b ->
  waiters b !! runId = Some l ->
  waiters (notifyWaiters runId b) = delete runId (waiters b)
  /\ runs (notifyWaiters runId b) = runs b
  /\ forall fn, heap (notifyWaiters runId b) !! fn
                = if decide (fn ∈ l) then woken <$> heap b !! fn
                  else heap b !! fn.
Proof.
  intros Hreg Hl. destruct (Hreg _ _ Hl) as (_ & Hnd & Hmem).
  unfold notifyWaiters. rewrite Hl.
  destruct (fold_settle_cleared l runId
              (withWaiters b (delete runId (waiters b))))
    as (H1 & H2 & H3); [cbn; apply lookup_delete_eq|done|done|].
  exact (conj H1 (conj H2 H3)).
Qed.

Lemma notifyWaiters_inv runId b :
  waitersInv b -> waitersInv (notifyWaiters runId b).
Proof.
  intros (Hheap & Hreg & Hpend).
  destruct (waiters b !! runId) as [l|] eqn:Hl.
  2:{ by rewrite notifyWaiters_unregistered. }
  destruct (notifyWaiters_registered runId b l Hreg Hl) as (Hw' & _ & Hh').
  destruct (Hreg _ _ Hl) as (_ & _ & Hmem).
  split; [|split].
  - intros fn w'. rewrite Hh'. case_decide as Hin.
    + destruct (Hmem fn Hin) as (w & Hw & _ & Hs). rewrite Hw. cbn.
      intros [= <-]. cbn. specialize (Hheap _ _ Hw). rewrite Hs in Hheap.
      destruct Hheap as [_ ->]. done.
    + apply Hheap.
  - intros r l'. rewrite Hw'. intros Hl'.
    apply lookup_delete_Some in Hl' as [Hne Hl'].
    destruct (Hreg _ _ Hl') as (Hnil & Hnd & Hmem').
    split; [done|]. split; [done|].
    intros fn Hin. destruct (Hmem' fn Hin) as (w & Hw & Hr & Hs).
    exists w. rewrite Hh'. rewrite decide_False; [done|].
    intros Hin'. destruct (Hmem fn Hin') as (w0 & Hw0 & Hr0 & _). congruence.
  - intros fn w'. rewrite Hh'. case_decide as Hin.
    + destruct (Hmem fn Hin) as (w & Hw & _ & _). rewrite Hw. cbn.
      by intros [= <-].
    + intros Hw Hs. destruct (Hpend _ _ Hw Hs) as (l' & Hl' & Hin').
      exists l'. split; [|done]. rewrite Hw'.
      apply lookup_delete_Some. split; [|done].
      intros Heq. rewrite <- Heq, Hl in Hl'. congruence.
Qed.

Lemma addEvent_inv runId event b :
  waitersInv b -> waitersInv (addEvent runId event b).
Proof.
  intros Hinv. unfold addEvent. destruct (runs b !! runId) as [run|]; [|done].
  destruct (_ || _); [apply notifyWaiters_inv|]; by eapply waitersInv_ext.
Qed.

Lemma waitForEvents_inv runId b :
  waitersInv b -> waitersInv (fst (waitForEvents runId b)).
Proof.
  intros (Hheap & Hreg & Hpend). unfold waitForEvents.
  destruct (runs b !! runId) as [run|]; [|done].
  destruct (_ || _); [done|]. cbn.
  set (fn := length (heap b)).
  set (w := {| waiterRun := runId; settled := false;
               timerArmed := true; resolveCalls := 0 |}).
  assert (Hold : forall x wx, heap b !! x = Some wx -> (heap b ++ [w]) !! x = Some wx).
  { intros x wx Hx. by apply lookup_app_l_Some. }
  assert (Hfresh : forall l, waiters b !! runId = Some l -> fn ∉ l).
  { intros l Hl Hin. destruct (Hreg _ _ Hl) as (_ & _ & Hmem).
    destruct (Hmem fn Hin) as (w0 & Hw0 & _).
    apply lookup_lt_Some in Hw0. unfold fn in Hw0. lia. }
  split; [|split].
  - intros x wx. cbn. intros Hx.
    apply lookup_app_Some in Hx as [Hx|[_ Hx]]; [by apply (Hheap x)|].
    apply list_lookup_singleton_Some in Hx as [_ <-]. done.
  - intros r l. cbn. destruct (decide (r = runId)) as [->|Hne].
    + rewrite lookup_insert_eq. intros [= <-].
      split; [by destruct (default [] (waiters b !! runId))|].
      destruct (waiters b !! runId) as [l0|] eqn:Hl0; cbn.
      * destruct (Hreg _ _ Hl0) as (_ & Hnd & Hmem). split.
        { apply NoDup_app. split; [done|]. split; [|apply NoDup_singleton].
          intros x Hx Hx'. apply list_elem_of_singleton in Hx' as ->.
          by apply (Hfresh l0). }
        intros x [Hx|Hx]%elem_of_app.
        { destruct (Hmem x Hx) as (wx & Hwx & Hr & Hs). exists wx. eauto. }
        apply list_elem_of_singleton in Hx as ->. exists w.
        split; [|done]. by rewrite lookup_app_r, Nat.sub_diag.
      * split; [apply NoDup_singleton|].
        intros x Hx. apply list_elem_of_singleton in Hx as ->. exists w.
        split; [|done]. by rewrite lookup_app_r, Nat.sub_diag.
    + rewrite lookup_insert_ne by done. intros Hl.
      destruct (Hreg _ _ Hl) as (Hnil & Hnd & Hmem).
      split; [done|]. split; [done|].
      intros x Hx. destruct (Hmem x Hx) as (wx & Hwx & Hr & Hs).
      exists wx. eauto.
  - intros x wx. cbn. intros Hx Hs.
    apply lookup_app_Some in Hx as [Hx|[Hlen Hx]].
    + destruct (Hpend _ _ Hx Hs) as (l & Hl & Hin).
      destruct (decide (waiterRun wx = runId)) as [Heq|Hne].
      * rewrite Heq, lookup_insert_eq. rewrite Heq in Hl. rewrite Hl. cbn.
        eexists. split; [done|]. apply elem_of_app. by left.
      * rewrite lookup_insert_ne by done. eauto.
    + apply list_lookup_singleton_Some in Hx as [Hx <-]. cbn.
      rewrite lookup_insert_eq. eexists. split; [done|].
      apply elem_of_app. right. apply list_elem_of_singleton.
      unfold fn in *. lia.
Qed.

(** A pending waiter whose timer fires: the closure is marked and taken off
    its run's registration list. *)
Lemma timerFires_pending fn b w :
  waitersInv b ->
  heap b !! fn = Some w ->
  settled w = false ->
  exists l,
    waiters b !! waiterRun w = Some l /\ fn ∈ l
    /\ heap (timerFires fn b) = <[fn := woken w]> (heap b)
    /\ runs (timerFires fn b) = runs b
    /\ waiters (timerFires fn b)
       = match spliceFirst fn l with
         | [] => delete (waiterRun w) (waiters b)
         | l' => <[waiterRun w := l']> (waiters b)
         end.
Proof.
  intros (Hheap & Hreg & Hpend) Hw Hs.
  destruct (Hpend _ _ Hw Hs) as (l & Hl & Hin). exists l.
  split; [done|]. split; [done|].
  pose proof (Hheap _ _ Hw) as Hok. rewrite Hs in Hok. destruct Hok as [Ha _].
  rewrite (timerFires_unsettled fn b w Hw Hs Ha). cbn.
  rewrite runs_removeWaiter, waiters_removeWaiter, Hl. done.
Qed.

Lemma timerFires_inv fn b : waitersInv b -> waitersInv (timerFires fn b).
Proof.
  intros Hinv.
  destruct (heap b !! fn) as [w|] eqn:Hw.
  2:{ unfold timerFires. by rewrite Hw. }
  destruct (settled w) eqn:Hs.
  { pose proof Hinv as (Hheap & _). specialize (Hheap _ _ Hw).
    rewrite Hs in Hheap. destruct Hheap as [Ha _].
    by rewrite (timerFires_disarmed fn b w). }
  destruct (timerFires_pending fn b w Hinv Hw Hs)
    as (l & Hl & Hin & Hh' & _ & Hw').
  destruct Hinv as (Hheap & Hreg & Hpend).
  destruct (Hreg _ _ Hl) as (_ & Hnd & Hmem).
  assert (Hlt : (fn < length (heap b))%nat) by (by eapply lookup_lt_Some).
  assert (Hsplice : forall x, x ∈ spliceFirst fn l <-> x ∈ l /\ x <> fn)
    by (intros x; by apply spliceFirst_elem).
  assert (Hlook : forall r l',
             waiters (timerFires fn b) !! r = Some l' ->
             (r = waiterRun w /\ l' = spliceFirst fn l /\ l' <> [])
             \/ (r <> waiterRun w /\ waiters b !! r = Some l')).
  { intros r l'. rewrite Hw'. destruct (decide (r = waiterRun w)) as [->|Hne].
    - destruct (spliceFirst fn l) as [|y l1] eqn:Hsp.
      + by rewrite lookup_delete_eq.
      + rewrite lookup_insert_eq. intros [= <-]. left. done.
    - intros Hr. right. split; [done|].
      destruct (spliceFirst fn l).
      + by rewrite lookup_delete_ne in Hr.
      + by rewrite lookup_insert_ne in Hr. }
  split; [|split].
  - intros x wx. rewrite Hh'. destruct (decide (x = fn)) as [->|Hne].
    + rewrite list_lookup_insert_eq by done. intros [= <-]. cbn.
      specialize (Hheap _ _ Hw). rewrite Hs in Hheap.
      destruct Hheap as [_ ->]. done.
    + rewrite list_lookup_insert_ne by done. apply Hheap.
  - intros r l' Hr. destruct (Hlook _ _ Hr) as [(-> & -> & Hnil)|(Hne & Hr0)].
    + split; [done|]. split; [by apply spliceFirst_NoDup|].
      intros x Hx. apply Hsplice in Hx as [Hx Hxne].
      destruct (Hmem x Hx) as (wx & Hwx & Hrx & Hsx). exists wx.
      rewrite Hh', list_lookup_insert_ne by done. done.
    + destruct (Hreg _ _ Hr0) as (Hnil & Hnd' & Hmem').
      split; [done|]. split; [done|].
      intros x Hx. destruct (Hmem' x Hx) as (wx & Hwx & Hrx & Hsx).
      exists wx. rewrite Hh', list_lookup_insert_ne; [done|].
      intros ->. congruence.
  - intros x wx. rewrite Hh'. destruct (decide (x = fn)) as [->|Hne].
    + rewrite list_lookup_insert_eq by done. by intros [= <-].
    + rewrite list_lookup_insert_ne by done. intros Hx Hsx.
      destruct (Hpend _ _ Hx Hsx) as (l' & Hl' & Hin').
      rewrite Hw'. destruct (decide (waiterRun wx = waiterRun w)) as [Heq|Hneq].
      * rewrite Heq in *. rewrite Hl in Hl'. injection Hl' as <-.
        assert (Hx' : x ∈ spliceFirst fn l) by (by apply Hsplice).
        destruct (spliceFirst fn l) as [|y l1] eqn:Hsp.
        { by apply elem_of_nil in Hx'. }
        rewrite lookup_insert_eq. eauto.
      * exists l'. split; [|done]. destruct (spliceFirst fn l).
        { by rewrite lookup_delete_ne. }
        by rewrite lookup_insert_ne.
Qed.

Lemma step_inv op b : waitersInv b -> waitersInv (step op b).
Proof.
  intros Hinv. destruct op as [r|r e|r|fn|r|r s]; cbn [step].
  - by eapply waitersInv_ext.
  - by apply addEvent_inv.
  - by apply waitForEvents_inv.
  - by apply timerFires_inv.
  - unfold getNewEvents. destruct (runs b !! r); [|done].
    by eapply waitersInv_ext.
  - unfold setStatus. destruct (runs b !! r); [|done].
    by eapply waitersInv_ext.
Qed.

Lemma waitersInv_empty : waitersInv emptyBuffer.
Proof.
  split; [|split].
  - intros fn w. cbn. by rewrite lookup_nil.
  - intros r l. cbn. by rewrite lookup_empty.
  - intros fn w. cbn. by rewrite lookup_nil.
Qed.

Lemma runOps_inv ops b : waitersInv b -> waitersInv (runOps ops b).
Proof.
  revert b. induction ops as [|op ops IH]; intros b Hinv; [done|].
  rewrite runOps_cons. by apply IH, step_inv.
Qed.

(** What one notifying [addEvent] does to a state between two operations. *)
Lemma addEvent_notifies runId event b run l :
  waitersInv b ->
  runs b !! runId = Some run ->
  interesting (type event) || String.eqb (type event) "cancelled" = true ->
  waiters b !! runId = Some l ->
  waiters (addEvent runId event b) = delete runId (waiters b)
  /\ (forall fn, fn ∈ l ->
        exists w, heap b !! fn = Some w /\ waiterRun w = runId
                  /\ settled w = false /\ timerArmed w = true
                  /\ resolveCalls w = 0%nat
                  /\ heap (addEvent runId event b) !! fn = Some (woken w))
  /\ (forall fn, fn ∉ l -> heap (addEvent runId event b) !! fn = heap b !! fn).
Proof.
  intros (Hheap & Hreg & Hpend) Hrun Hty Hl.
  unfold addEvent. rewrite Hrun, Hty.
  set (b1 := withRuns b _).
  assert (Hreg1 : registrationsOk b1) by exact Hreg.
  destruct (notifyWaiters_registered runId b1 l Hreg1 Hl) as (Hw' & _ & Hh').
  destruct (Hreg _ _ Hl) as (_ & _ & Hmem).
  split; [done|]. split.
  - intros fn Hin. destruct (Hmem fn Hin) as (w & Hw & Hr & Hs).
    exists w. pose proof (Hheap _ _ Hw) as Hok. rewrite Hs in Hok.
    destruct Hok as [Ha Hc]. repeat (split; [done|]).
    rewrite Hh', decide_True by done. cbn. by rewrite Hw.
  - intros fn Hnin. by rewrite Hh', decide_False.
Qed.

(** C3.  In every state reached from the empty buffer:
    - a waiter that has settled had [resolve] called exactly once, its timer
      is cleared and it is on no registration list; a waiter that has not
      settled has its timer armed and is on the list of its run, so that one
      of the two triggers is still to come;
    - when [addEvent] appends an interesting event or the [cancelled] signal
      to an existing run, the run's registration list is deleted first and
      the callbacks of the copy run on the cleared buffer, where a
      notification for the id, at any point among the callbacks, does
      nothing; afterwards each waiter of the list has settled with one
      [resolve] call, no other waiter has changed, and neither its timer nor
      a second call of its callback has any effect;
    - when the timer of a pending waiter fires, the waiter settles with one
      [resolve] call and is taken off every list, so that a later
      notification does not reach it, and a second timer or callback call
      has no effect. *)
Theorem waiters_settle_exactly_once (ops : list Op) :
  let b := runOps ops emptyBuffer in
  (forall fn w,
      heap b !! fn = Some w ->
      if settled w
      then resolveCalls w = 1%nat /\ timerArmed w = false
           /\ forall r l, waiters b !! r = Some l -> fn ∉ l
      else resolveCalls w = 0%nat /\ timerArmed w = true
           /\ exists l, waiters b !! waiterRun w = Some l /\ fn ∈ l)
  /\ (forall runId run event l,
        runs b !! runId = Some run ->
        interesting (type event) || String.eqb (type event) "cancelled" = true ->
        waiters b !! runId = Some l ->
        let cleared :=
          withWaiters
            (withRuns b (<[runId := applyEvent event (pushEvent event run)]> (runs b)))
            (delete runId (waiters b)) in
        let b' := addEvent runId event b in
        b' = fold_left (fun acc fn => settle fn acc) l cleared
        /\ (forall l1 l2, l = l1 ++ l2 ->
              let during := fold_left (fun acc fn => settle fn acc) l1 cleared in
              waiters during !! runId = None
              /\ notifyWaiters runId during = during)
        /\ waiters b' = delete runId (waiters b)
        /\ (forall fn, fn ∈ l ->
              exists w, heap b !! fn = Some w
                        /\ settled w = false /\ resolveCalls w = 0%nat
                        /\ heap b' !! fn = Some (woken w)
                        /\ timerFires fn b' = b' /\ settle fn b' = b')
        /\ (forall fn, fn ∉ l -> heap b' !! fn = heap b !! fn))
  /\ (forall fn w,
        heap b !! fn = Some w ->
        settled w = false ->
        let b' := timerFires fn b in
        heap b' !! fn = Some (woken w)
        /\ (forall r l, waiters b' !! r = Some l -> fn ∉ l)
        /\ (forall fn', fn' <> fn -> heap b' !! fn' = heap b !! fn')
        /\ timerFires fn b' = b' /\ settle fn b' = b').
Proof.
  intros b.
  assert (Hinv : waitersInv b) by apply runOps_inv, waitersInv_empty.
  assert (Hsettled : forall bx fn w,
             waitersInv bx -> heap bx !! fn = Some w -> settled w = true ->
             forall r l, waiters bx !! r = Some l -> fn ∉ l).
  { intros bx fn w (_ & Hreg & _) Hw Hs r l Hl Hin.
    destruct (Hreg _ _ Hl) as (_ & _ & Hmem).
    destruct (Hmem fn Hin) as (w0 & Hw0 & _ & Hs0). congruence. }
  split; [|split].
  - intros fn w Hw. pose proof Hinv as (Hheap & Hreg & Hpend).
    pose proof (Hheap _ _ Hw) as Hok.
    destruct (settled w) eqn:Hs.
    + destruct Hok as [Ha Hc]. repeat (split; [done|]).
      by apply (Hsettled b fn w).
    + destruct Hok as [Ha Hc]. repeat (split; [done|]).
      by apply Hpend.
  - intros runId run event l Hrun Hty Hl cleared b'.
    destruct (addEvent_notifies runId event b run l Hinv Hrun Hty Hl)
      as (Hw' & Hin' & Hout').
    pose proof Hinv as (Hheap & Hreg & Hpend).
    destruct (Hreg _ _ Hl) as (_ & Hnd & Hmem).
    split; [|split; [|split; [done|split; [|done]]]].
    + subst b' cleared. unfold addEvent. rewrite Hrun, Hty.
      unfold notifyWaiters. cbn. by rewrite Hl.
    + intros l1 l2 -> during.
      apply NoDup_app in Hnd as (Hnd1 & _ & _).
      destruct (fold_settle_cleared l1 runId cleared) as (Hwd & _ & _).
      { cbn. apply lookup_delete_eq. }
      { done. }
      { intros fn Hfn. apply (Hmem fn). apply elem_of_app. by left. }
      assert (Hnone : waiters during !! runId = None).
      { subst during. rewrite Hwd. cbn. apply lookup_delete_eq. }
      split; [done|]. by apply notifyWaiters_unregistered.
    + intros fn Hfn.
      destruct (Hin' fn Hfn) as (w & Hw & _ & Hs & _ & Hc & Hwoken).
      exists w. repeat (split; [done|]). split.
      * by apply (timerFires_disarmed fn _ (woken w)).
      * by apply (settle_settled fn _ (woken w)).
  - intros fn w Hw Hs b'.
    destruct (timerFires_pending fn b w Hinv Hw Hs)
      as (l & Hl & Hin & Hh' & _ & _).
    assert (Hinv' : waitersInv b') by (by apply timerFires_inv).
    assert (Hwoken : heap b' !! fn = Some (woken w)).
    { subst b'. rewrite Hh'. apply list_lookup_insert_eq.
      by eapply lookup_lt_Some. }
    split; [done|]. split; [by apply (Hsettled b' fn (woken w))|].
    split; [|split].
    + intros fn' Hne. subst b'. rewrite Hh'.
      by rewrite list_lookup_insert_ne.
    + by apply (timerFires_disarmed fn _ (woken w)).
    + by apply (settle_settled fn _ (woken w)).
Qed.

(** ** The cancellation signal *)

Lemma getNewEvents_only_interesting runId b res e :
  snd (getNewEvents runId b) = Some res ->
  e ∈ newEvents res ->
  isInteresting e = true.
Proof.
  unfold getNewEvents. destruct (runs b !! runId) as [run|]; [|done].
  cbn. intros [= <-]. cbn. intros Hin.
  by apply list_elem_of_filter in Hin as [He _].
Qed.

(** C9.  In a state reached from the empty buffer, ingesting an event of
    type [cancelled] for an existing run logs it, sets the status to
    [canceled], deletes the run's registration list and settles every waiter
    that was on it.  The type is not in the interesting set: the poll that
    follows reports [canceled] and hands out the pending interesting events
    without the cancellation event, a wait on the run returns at once, and no
    [getNewEvents] result ever holds an event of type [cancelled]. *)
Theorem cancelled_wakes_but_is_not_delivered
    (ops : list Op) (runId : string) (run : RunState) (event : SSEEvent) :
  let b := runOps ops emptyBuffer in
  runs b !! runId = Some run ->
  type event = "cancelled" ->
  let b' := addEvent runId event b in
  (exists run', runs b' !! runId = Some run'
                /\ status run' = canceled
                /\ events run' = events run ++ [event])
  /\ waiters b' !! runId = None
  /\ (forall l fn,
        waiters b !! runId = Some l -> fn ∈ l ->
        exists w, heap b !! fn = Some w /\ settled w = false
                  /\ heap b' !! fn = Some (woken w))
  /\ isInteresting event = false
  /\ snd (waitForEvents runId b') = None
  /\ (exists res,
        snd (getNewEvents runId b') = Some res
        /\ pollStatus res = canceled
        /\ (event ∉ newEvents res)
        /\ newEvents res
           = filter (fun e => isInteresting e = true) (pending run))
  /\ (forall bx rx resx e,
        snd (getNewEvents rx bx) = Some resx ->
        e ∈ newEvents resx -> type e <> "cancelled").
Proof.
  intros b Hrun Hty b'. subst b'.
  assert (Hinv : waitersInv b) by apply runOps_inv, waitersInv_empty.
  assert (Hcur : (lastPollIndex run <= length (events run))%nat).
  { apply (cursorsOk_runOps ops emptyBuffer) with (runId := runId); [|done].
    intros r x. unfold emptyBuffer; cbn. by rewrite lookup_empty. }
  assert (Hnot : isInteresting event = false)
    by (unfold isInteresting; by rewrite Hty).
  assert (Hflag : interesting (type event) || String.eqb (type event) "cancelled" = true)
    by (by rewrite Hty).
  set (run' := applyEvent event (pushEvent event run)).
  assert (Hrun' : runs (addEvent runId event b) !! runId = Some run')
    by apply (addEvent_lookup _ _ _ _ Hrun).
  assert (Hst : status run' = canceled).
  { by apply (applyEvent_effects event (pushEvent event run)). }
  assert (Hev : events run' = events run ++ [event])
    by apply events_applyEvent.
  assert (Hidx : lastPollIndex run' = lastPollIndex run)
    by (unfold run'; by rewrite lastPollIndex_applyEvent).
  split; [by exists run'|].
  split.
  { destruct (waiters b !! runId) as [l|] eqn:Hl.
    - destruct (addEvent_notifies runId event b run l Hinv Hrun Hflag Hl)
        as (-> & _). apply lookup_delete_eq.
    - unfold addEvent. rewrite Hrun, Hflag.
      by rewrite notifyWaiters_unregistered. }
  split.
  { intros l fn Hl Hin.
    destruct (addEvent_notifies runId event b run l Hinv Hrun Hflag Hl)
      as (_ & Hwake & _).
    destruct (Hwake fn Hin) as (w & Hw & _ & Hs & _ & _ & Hw').
    by exists w. }
  split; [done|].
  split.
  { unfold waitForEvents. rewrite Hrun', Hst. cbn. by rewrite orb_true_r. }
  split.
  { unfold getNewEvents. rewrite Hrun'.
    eexists. split; [reflexivity|].
    cbn [pollStatus newEvents setLastPollIndex status].
    split; [done|].
    assert (Hpend : filter (fun e => isInteresting e = true) (pending run')
                    = filter (fun e => isInteresting e = true) (pending run)).
    { unfold pending. rewrite Hidx, Hev, drop_app_le by done.
      rewrite filter_app, filter_cons_False, filter_nil, app_nil_r;
        [done|by rewrite Hnot]. }
    rewrite Hpend. split; [|done].
    intros Hin. apply list_elem_of_filter in Hin as [He _]. congruence. }
  intros bx rx resx e Hres Hin Hte.
  pose proof (getNewEvents_only_interesting rx bx resx e Hres Hin) as He.
  unfold isInteresting in He. by rewrite Hte in He.
Qed.

Lemma cancelled_wakes_but_is_not_delivered_witness :
  runs (runOps [OpCreateRun "R1"; OpWaitForEvents "R1"] emptyBuffer) !! "R1"
  = Some newRun
  /\ type cancelledEvent = "cancelled"
  /\ (exists run',
        runs (addEvent "R1" cancelledEvent
                (runOps [OpCreateRun "R1"; OpWaitForEvents "R1"] emptyBuffer))
          !! "R1" = Some run'
        /\ status run' = canceled
        /\ events run' = events newRun ++ [cancelledEvent]).
Proof.
  assert (H : runs (runOps [OpCreateRun "R1"; OpWaitForEvents "R1"] emptyBuffer)
                !! "R1" = Some newRun).
  { cbn. rewrite runs_waitForEvents. cbn. apply lookup_insert_eq. }
  split; [exact H|]. split; [reflexivity|].
  exact (proj1 (cancelled_wakes_but_is_not_delivered
                  [OpCreateRun "R1"; OpWaitForEvents "R1"] "R1" newRun
                  cancelledEvent H eq_refl)).
Defined.

(** ** Stripping the reasoning traces *)
















Lemma append_cons c s t :
  String.append (String c s) t = String c (String.append s t).
Proof. reflexivity. Qed.

Lemma append_empty t : String.append EmptyString t = t.
Proof. reflexivity. Qed.








(** ** Publish data: the flattened responses *)








Lemma completedWith_run roundResults :
  runs (completedWith roundResults) !! "R1"
  = Some (applyEvent
            (finalEvent [("conversation",
                          JObj [("topic", JStr "X");
                                ("round_results", JArr roundResults)])])
            (pushEvent
               (finalEvent [("conversation",
                             JObj [("topic", JStr "X");
                                   ("round_results", JArr roundResults)])])
               newRun)).
Proof.
  unfold completedWith. apply addEvent_lookup. cbn. apply lookup_insert_eq.
Qed.

(** The scenario of the specification: two rounds of one node each, two
    responses per node. *)
Example publish_two_rounds :
  (responses <$>
     getPublishData "R1"
       (completedWith
          [roundObject
             [nodeObject 1
                [responseObject "Ada" "<think>plan</think> first ";
                 responseObject "Bob" "second"]];
           roundObject
             [nodeObject 2
                [responseObject "Ada" "third<think>a
b</think>";
                 responseObject "Bob" " <think>x</think>fourth<think>y</think>"]]]))
  = Some [ {| round := 1; agent := "Ada"; role := "panelist";
              message := "first"; model := None; provider := None |};
           {| round := 1; agent := "Bob"; role := "panelist";
              message := "second"; model := None; provider := None |};
           {| round := 2; agent := "Ada"; role := "panelist";
              message := "third"; model := None; provider := None |};
           {| round := 2; agent := "Bob"; role := "panelist";
              message := "fourth"; model := None; provider := None |} ].
Proof. unfold getPublishData. rewrite completedWith_run. reflexivity. Qed.


(** One poller on [R1], woken by a response: its closure is settled with one
    [resolve] call, the registration list it was on is gone, and its timer
    no longer does anything. *)
Example wake_one_poller :
  let b := fst (waitForEvents "R1" (createRun "R1" emptyBuffer)) in
  let b' := addEvent "R1" sampleResponse b in
  heap b = [ {| waiterRun := "R1"; settled := false;
                timerArmed := true; resolveCalls := 0 |} ]
  /\ waiters b !! "R1" = Some [0%nat]
  /\ heap b' = [ {| waiterRun := "R1"; settled := true;
                    timerArmed := false; resolveCalls := 1 |} ]
  /\ waiters b' !! "R1" = None
  /\ timerFires 0 b' = b'.
Proof. cbv zeta. repeat split; vm_compute; reflexivity. Qed.

(** The same poller timing out instead: settled once by its timer, off the
    list, and a later notification finds nobody. *)
Example time_out_one_poller :
  let b := fst (waitForEvents "R1" (createRun "R1" emptyBuffer)) in
  let b' := timerFires 0 b in
  heap b' = [ {| waiterRun := "R1"; settled := true;
                 timerArmed := false; resolveCalls := 1 |} ]
  /\ waiters b' !! "R1" = None
  /\ heap (addEvent "R1" sampleResponse b') = heap b'.
Proof. cbv zeta. repeat split; vm_compute; reflexivity. Qed.

(** * Further properties of the event buffer *)

(** ** Unknown run ids *)

(** X1.  For a run id the registry does not hold, [addEvent], [setStatus],
    [getNewEvents] and [waitForEvents] leave the whole buffer as it is (no
    run appears, no waiter is woken or registered), and every query answers
    with its not-found value. *)
Theorem unknown_run_is_inert (runId : string) (b : EventBuffer) :
  runs b !! runId = None ->
  (forall event, addEvent runId event b = b)
  /\ (forall s, setStatus runId s b = b)
  /\ getNewEvents runId b = (b, None)
  /\ waitForEvents runId b = (b, None)
  /\ getResult runId b = None
  /\ getRunInfo runId b = None
  /\ getPublishData runId b = None
  /\ has runId b = false.
Proof.
  intros Hnone.
  unfold addEvent, setStatus, getNewEvents, waitForEvents, getResult,
    getRunInfo, getPublishData, has.
  rewrite Hnone. repeat split.
Qed.

Lemma unknown_run_is_inert_witness :
  runs sampleBuffer !! "R9" = None
  /\ addEvent "R9" cancelledEvent sampleBuffer = sampleBuffer
  /\ getNewEvents "R9" sampleBuffer = (sampleBuffer, None).
Proof.
  assert (H : runs sampleBuffer !! "R9" = None) by (vm_compute; reflexivity).
  destruct (unknown_run_is_inert "R9" sampleBuffer H) as (Ha & _ & Hg & _).
  split; [exact H|]. split; [apply Ha|exact Hg].
Defined.

(** ** Polling twice *)

Lemma setLastPollIndex_same run :
  setLastPollIndex (lastPollIndex run) run = run.
Proof. by destruct run. Qed.

(** X2.  A second [getNewEvents] right after a first hands out nothing: it
    returns the same status and counters with an empty [newEvents] and
    leaves the buffer as the first call left it. *)
Theorem second_poll_is_empty
    (runId : string) (b b1 : EventBuffer) (r1 : PollResult) :
  getNewEvents runId b = (b1, Some r1) ->
  getNewEvents runId b1
  = (b1, Some {| pollStatus := pollStatus r1; newEvents := [];
                 pollAgentsResponded := pollAgentsResponded r1;
                 pollAgentsTotal := pollAgentsTotal r1 |}).
Proof.
  unfold getNewEvents at 1.
  destruct (runs b !! runId) as [run|] eqn:Hrun; [|done].
  intros [= <- <-]. unfold getNewEvents. cbn [runs withRuns].
  rewrite lookup_insert_eq. unfold pending.
  cbn [events lastPollIndex setLastPollIndex status agentsResponded
       agentsTotal pollStatus pollAgentsResponded pollAgentsTotal].
  rewrite drop_all. cbn [filter list_filter].
  f_equal. unfold withRuns. cbn. f_equal.
  rewrite insert_insert_eq. f_equal.
Qed.

Lemma second_poll_is_empty_witness :
  exists b1 r1,
    getNewEvents "R2" sampleBuffer = (b1, Some r1)
    /\ newEvents r1 = [sampleResponse]
    /\ (newEvents <$> snd (getNewEvents "R2" b1)) = Some [].
Proof.
  destruct (getNewEvents "R2" sampleBuffer) as [b1 [r1|]] eqn:H.
  - exists b1, r1. split; [reflexivity|]. split.
    + revert H. vm_compute. by intros [= <- <-].
    + by rewrite (second_poll_is_empty "R2" sampleBuffer b1 r1 H).
  - exfalso. revert H. vm_compute. discriminate.
Defined.

(** ** Invariants of a run *)

(** A property of run states that the empty run has and that pushing an
    event, moving the cursor and overriding the status keep, holds of every
    run of every buffer reached. *)
Lemma run_invariant (P : RunState -> Prop) :
  P newRun ->
  (forall e run, P run -> P (applyEvent e (pushEvent e run))) ->
  (forall i run, P run -> P (setLastPollIndex i run)) ->
  (forall s run, P run -> P (setRunStatus s run)) ->
  forall ops b,
    (forall r run, runs b !! r = Some run -> P run) ->
    forall r run, runs (runOps ops b) !! r = Some run -> P run.
Proof.
  intros Hnew Hadd Hidx Hst ops.
  induction ops as [|op ops IH]; intros b Hb; [exact Hb|].
  rewrite runOps_cons. apply IH. clear IH. intros r run'.
  destruct (decide (opRun op = Some r)) as [Hop|Hop].
  2:{ rewrite step_other_run by done. apply Hb. }
  destruct op as [r0|r0 e|r0|fn|r0|r0 s]; cbn in Hop; try discriminate;
    injection Hop as ->; cbn [step].
  - cbn. rewrite lookup_insert_eq. by intros [= <-].
  - rewrite runs_addEvent.
    destruct (runs b !! r) as [run|] eqn:Hrun; [|by rewrite Hrun].
    rewrite lookup_insert_eq. intros [= <-]. apply Hadd. by apply (Hb r).
  - rewrite runs_waitForEvents. apply Hb.
  - rewrite runs_getNewEvents.
    destruct (runs b !! r) as [run|] eqn:Hrun; [|by rewrite Hrun].
    rewrite lookup_insert_eq. intros [= <-]. apply Hidx. by apply (Hb r).
  - rewrite runs_setStatus.
    destruct (runs b !! r) as [run|] eqn:Hrun; [|by rewrite Hrun].
    rewrite lookup_insert_eq. intros [= <-]. apply Hst. by apply (Hb r).
Qed.

Lemma eventsOfType_snoc t l e :
  eventsOfType t (l ++ [e])
  = eventsOfType t l ++ (if hasType t e then [e] else []).
Proof. unfold eventsOfType. by rewrite List.filter_app. Qed.

(** The [switch], field by field. *)
Lemma applyEvent_fields e run :
  agentsResponded (applyEvent e run)
  = (if hasType "agent_response" e then agentsResponded run + 1
     else agentsResponded run)
  /\ agentsTotal (applyEvent e run)
     = (if hasType "agents_created" e
        then numberNullish (lookupField "count" (props e)) 0
        else agentsTotal run)
  /\ estimatedCost (applyEvent e run)
     = (if hasType "cost_estimation" e
        then numberNullish (lookupField "estimated_cost" (props e)) 0
        else estimatedCost run)
  /\ finalResult (applyEvent e run)
     = (if hasType "final" e then Some e else finalResult run).
Proof.
  unfold applyEvent, hasType.
  repeat split; case_type e; try congruence; cbn;
    try reflexivity;
    repeat match goal with
           | |- context [if ?c then _ else _] => destruct c
           end;
    try reflexivity;
    try (etrans; [apply seedTopic_fields|reflexivity]).
Qed.

Lemma countersMatchLog_push e run :
  countersMatchLog run -> countersMatchLog (applyEvent e (pushEvent e run)).
Proof.
  intros (Hresp & Htot & Hcost & Hfin).
  destruct (applyEvent_fields e (pushEvent e run)) as (H1 & H2 & H3 & H4).
  unfold countersMatchLog, latestNumber.
  rewrite events_applyEvent, H1, H2, H3, H4. cbn [events pushEvent
    agentsResponded agentsTotal estimatedCost finalResult].
  rewrite !eventsOfType_snoc.
  split; [|split; [|split]].
  - destruct (hasType "agent_response" e).
    + rewrite length_app, Hresp. cbn. lia.
    + by rewrite app_nil_r.
  - destruct (hasType "agents_created" e).
    + by rewrite last_snoc.
    + by rewrite app_nil_r.
  - destruct (hasType "cost_estimation" e).
    + by rewrite last_snoc.
    + by rewrite app_nil_r.
  - destruct (hasType "final" e).
    + by rewrite last_snoc.
    + by rewrite app_nil_r.
Qed.

Lemma countersMatchLog_reached ops runId run :
  runs (runOps ops emptyBuffer) !! runId = Some run -> countersMatchLog run.
Proof.
  apply (run_invariant countersMatchLog); try done.
  apply countersMatchLog_push.
Qed.

(** X3.  In every state reached from the empty buffer the counters of a
    run are functions of its log: [agentsResponded] is the number of
    [agent_response] events logged, [agentsTotal] is the count carried by the
    latest [agents_created] event and [estimatedCost] the estimate carried by
    the latest [cost_estimation] event (0 when there is none, or when the
    field is missing). *)
Theorem counters_match_log (ops : list Op) (runId : string) (run : RunState) :
  runs (runOps ops emptyBuffer) !! runId = Some run ->
  agentsResponded run
  = Z.of_nat (length (eventsOfType "agent_response" (events run)))
  /\ agentsTotal run = latestNumber "agents_created" "count" (events run)
  /\ estimatedCost run
     = latestNumber "cost_estimation" "estimated_cost" (events run).
Proof.
  intros Hrun.
  destruct (countersMatchLog_reached ops runId run Hrun) as (H1 & H2 & H3 & _).
  done.
Qed.

(** X4.  In every state reached from the empty buffer the cached final
    result of a run is the latest event of type [final] in its log, and
    there is none cached exactly when no such event was logged. *)
Theorem finalResult_is_latest_final (ops : list Op) (runId : string) (run : RunState) :
  runs (runOps ops emptyBuffer) !! runId = Some run ->
  finalResult run = last (eventsOfType "final" (events run))
  /\ (finalResult run = None <-> eventsOfType "final" (events run) = [])
  /\ (forall e, finalResult run = Some e -> e ∈ events run /\ type e = "final").
Proof.
  intros Hrun.
  destruct (countersMatchLog_reached ops runId run Hrun) as (_ & _ & _ & H).
  split; [done|]. split.
  - rewrite H. apply last_None.
  - intros e He. rewrite H in He. apply last_Some in He as [l' Hl'].
    assert (Hin : In e (eventsOfType "final" (events run))).
    { rewrite Hl'. apply in_or_app. right. by left. }
    apply List.filter_In in Hin as [Hin Hty]. split.
    + by apply list_elem_of_In.
    + by apply String.eqb_eq.
Qed.

Lemma sampleOps_run : runs (runOps sampleOps emptyBuffer) !! "R1" = Some sampleOpsRun.
Proof. vm_compute. reflexivity. Qed.

Lemma counters_match_log_witness :
  agentsResponded sampleOpsRun
  = Z.of_nat (length (eventsOfType "agent_response" (events sampleOpsRun)))
  /\ agentsTotal sampleOpsRun
     = latestNumber "agents_created" "count" (events sampleOpsRun)
  /\ estimatedCost sampleOpsRun
     = latestNumber "cost_estimation" "estimated_cost" (events sampleOpsRun).
Proof. exact (counters_match_log sampleOps "R1" sampleOpsRun sampleOps_run). Defined.

Lemma finalResult_is_latest_final_witness :
  finalResult sampleOpsRun = last (eventsOfType "final" (events sampleOpsRun)).
Proof.
  exact (proj1 (finalResult_is_latest_final sampleOps "R1" sampleOpsRun
                  sampleOps_run)).
Defined.

(** ** Runs are never removed *)

Lemma has_step op runId b :
  is_Some (runs b !! runId) -> is_Some (runs (step op b) !! runId).
Proof.
  intros Hsome.
  destruct (decide (opRun op = Some runId)) as [Hop|Hop].
  2:{ by rewrite step_other_run. }
  destruct op as [r0|r0 e|r0|fn|r0|r0 s]; cbn in Hop; try discriminate;
    injection Hop as ->; cbn [step].
  - cbn. rewrite lookup_insert_eq. eauto.
  - rewrite runs_addEvent. destruct (runs b !! runId); [|done].
    rewrite lookup_insert_eq. eauto.
  - by rewrite runs_waitForEvents.
  - rewrite runs_getNewEvents. destruct (runs b !! runId); [|done].
    rewrite lookup_insert_eq. eauto.
  - rewrite runs_setStatus. destruct (runs b !! runId); [|done].
    rewrite lookup_insert_eq. eauto.
Qed.

Lemma is_Some_runOps ops runId b :
  is_Some (runs b !! runId) -> is_Some (runs (runOps ops b) !! runId).
Proof.
  revert b. induction ops as [|op ops IH]; intros b Hsome; [done|].
  rewrite runOps_cons. by apply IH, has_step.
Qed.

(** X5.  No operation removes a run: an id the registry holds is still held
    after any sequence of operations, so that [getRunInfo], [getResult] and
    [getNewEvents] keep answering for it. *)
Theorem runs_persist (ops : list Op) (runId : string) (b : EventBuffer) :
  has runId b = true ->
  has runId (runOps ops b) = true
  /\ is_Some (getRunInfo runId (runOps ops b))
  /\ is_Some (getResult runId (runOps ops b))
  /\ is_Some (snd (getNewEvents runId (runOps ops b))).
Proof.
  intros Hhas. apply has_true in Hhas.
  pose proof (is_Some_runOps ops runId b Hhas) as Hsome.
  split; [by apply has_true|].
  destruct Hsome as [run Hrun].
  unfold getRunInfo, getResult, getNewEvents. rewrite Hrun. cbn. eauto.
Qed.

Lemma runs_persist_witness :
  has "R2" sampleBuffer = true
  /\ has "R2" (runOps sampleOps sampleBuffer) = true.
Proof.
  assert (H : has "R2" sampleBuffer = true) by (vm_compute; reflexivity).
  split; [exact H|].
  exact (proj1 (runs_persist sampleOps "R2" sampleBuffer H)).
Defined.

(** ** Events that are not delivered *)



(** ** The topic *)

(** X8.  A [connection] event that carries a non-empty topic replaces the
    topic of the run, whether one was set or not; a [final] event fills the
    topic from its conversation only while the topic is empty; events of
    any other type leave the topic as it is. *)
Theorem topic_rules (runId : string) (b : EventBuffer) (run : RunState) (event : SSEEvent) :
  runs b !! runId = Some run ->
  exists run',
    runs (addEvent runId event b) !! runId = Some run'
    /\ (type event = "connection" ->
        topic run'
        = stringOr (lookupField "topic" (props event)) (topic run))
    /\ (type event = "final" ->
        topic run'
        = if String.eqb (topic run) ""
          then stringOr
                 (fieldOfOpt (lookupField "conversation" (props event)) "topic")
                 ""
          else topic run)
    /\ (type event <> "connection" -> type event <> "final" ->
        topic run' = topic run).
Proof.
  intros Hrun. exists (applyEvent event (pushEvent event run)).
  split; [by apply addEvent_lookup|].
  unfold applyEvent. repeat split; intros; case_type event; try congruence;
    cbn; try reflexivity.
  - unfold seedTopic. destruct (lookupField "topic" (props event))
      as [[| | |s| |]|]; try reflexivity.
    cbn. by destruct (String.eqb s "").
  - destruct (String.eqb_spec (topic run) "") as [Ht|]; [|reflexivity].
    unfold seedTopic.
    destruct (fieldOfOpt (lookupField "conversation" (props event)) "topic")
      as [[| | |s| |]|]; cbn; try exact Ht.
    destruct (String.eqb s ""); [exact Ht|reflexivity].
Qed.

Lemma topic_rules_witness :
  exists run',
    runs (addEvent "R1" (connectionEvent "R1" "Y") (scenarioStart emptyBuffer))
      !! "R1" = Some run'
    /\ topic run' = "Y".
Proof.
  destruct (topic_rules "R1" (scenarioStart emptyBuffer) _
              (connectionEvent "R1" "Y") (scenarioStart_run emptyBuffer))
    as (run' & Hrun' & Hconn & _).
  exists run'. split; [exact Hrun'|]. by rewrite Hconn.
Defined.

(** ** Trimmed messages *)

Lemma append_eq_empty s t :
  String.append s t = EmptyString -> s = EmptyString /\ t = EmptyString.
Proof. destruct s; [done|]. by rewrite append_cons. Qed.

Lemma trimStart_head s c rest :
  trimStart s = String c rest -> isWhiteSpace c = false.
Proof.
  induction s as [|a s IH]; [done|]. cbn [trimStart].
  destruct (isWhiteSpace a) eqn:Ha; [done|]. by intros [= <- _].
Qed.

Lemma trimEnd_cons a s :
  trimEnd (String a s)
  = match trimEnd s with
    | EmptyString => if isWhiteSpace a then EmptyString else String a EmptyString
    | r => String a r
    end.
Proof. reflexivity. Qed.

Lemma trimEnd_head s c rest :
  trimEnd s = String c rest -> exists rest', s = String c rest'.
Proof.
  destruct s as [|a s]; [done|]. rewrite trimEnd_cons.
  destruct (trimEnd s); [destruct (isWhiteSpace a)|];
    intros [= <- _]; eauto.
Qed.

Lemma trimEnd_last s pre c :
  trimEnd s = String.append pre (String c EmptyString) ->
  isWhiteSpace c = false.
Proof.
  revert pre. induction s as [|a s IH]; intros pre.
  - cbn. by destruct pre.
  - rewrite trimEnd_cons. destruct (trimEnd s) as [|b r] eqn:Ht.
    + destruct (isWhiteSpace a) eqn:Ha; [by destruct pre|].
      destruct pre as [|x pre]; [by intros [= <-]|].
      rewrite append_cons. intros [= _ H]. by destruct pre.
    + destruct pre as [|x pre]; [done|].
      rewrite append_cons. intros [= _ H]. by apply (IH pre).
Qed.

Lemma trimEnd_idem s : trimEnd (trimEnd s) = trimEnd s.
Proof.
  induction s as [|a s IH]; [done|]. rewrite trimEnd_cons.
  destruct (trimEnd s) as [|b r] eqn:Ht.
  - destruct (isWhiteSpace a) eqn:Ha; [done|].
    rewrite trimEnd_cons. cbn [trimEnd]. by rewrite Ha.
  - rewrite trimEnd_cons, IH. done.
Qed.

Lemma trim_head s c rest : trim s = String c rest -> isWhiteSpace c = false.
Proof.
  unfold trim. intros H. apply trimEnd_head in H as [rest' H].
  by apply trimStart_head in H.
Qed.

Lemma trim_idem s : trim (trim s) = trim s.
Proof.
  assert (Hstart : trimStart (trim s) = trim s).
  { destruct (trim s) as [|c rest] eqn:Ht; [done|].
    cbn [trimStart]. by rewrite (trim_head s c rest Ht). }
  unfold trim at 1. rewrite Hstart. unfold trim. apply trimEnd_idem.
Qed.

Lemma trimStart_length s : (String.length (trimStart s) <= String.length s)%nat.
Proof.
  induction s as [|a s IH]; [done|]. cbn [trimStart].
  destruct (isWhiteSpace a); cbn; lia.
Qed.

Lemma trimEnd_length s : (String.length (trimEnd s) <= String.length s)%nat.
Proof.
  induction s as [|a s IH]; [done|]. rewrite trimEnd_cons.
  destruct (trimEnd s); [destruct (isWhiteSpace a)|]; cbn in *; lia.
Qed.

Lemma replaceThink_length k s :
  (String.length (replaceThink k s) <= String.length s)%nat.
Proof.
  revert k. induction s as [|a s IH]; intros k; [done|].
  cbn [replaceThink]. destruct k as [|k].
  - destruct (matchThink (String a s)) as [n|].
    + specialize (IH (n - 1)%nat). cbn. lia.
    + specialize (IH O). cbn. lia.
  - specialize (IH k). cbn. lia.
Qed.

(** X9.  The message [stripThinkTags] returns is trimmed: it neither
    starts nor ends with a white-space code unit, trimming it again changes
    nothing, and it is never longer than the message it was made from. *)
Theorem stripThinkTags_is_trimmed (m : string) :
  (forall c rest, stripThinkTags m = String c rest -> isWhiteSpace c = false)
  /\ (forall pre c,
        stripThinkTags m = String.append pre (String c EmptyString) ->
        isWhiteSpace c = false)
  /\ trim (stripThinkTags m) = stripThinkTags m
  /\ (String.length (stripThinkTags m) <= String.length m)%nat.
Proof.
  unfold stripThinkTags. split; [|split; [|split]].
  - intros c rest. apply trim_head.
  - intros pre c. unfold trim. apply trimEnd_last.
  - apply trim_idem.
  - unfold trim.
    pose proof (trimEnd_length (trimStart (replaceThink 0 m))).
    pose proof (trimStart_length (replaceThink 0 m)).
    pose proof (replaceThink_length 0 m). lia.
Qed.

(** ** Listing the runs *)

Lemma is_Some_step op r b :
  is_Some (runs (step op b) !! r)
  <-> is_Some (runs b !! r) \/ op = OpCreateRun r.
Proof.
  destruct (decide (opRun op = Some r)) as [Hop|Hop].
  2:{ rewrite step_other_run by done. split; [by left|].
      intros [H| ->]; [done|]. by cbn in Hop. }
  destruct op as [r0|r0 e|r0|fn|r0|r0 s]; cbn in Hop; try discriminate;
    injection Hop as ->; cbn [step].
  - cbn. rewrite lookup_insert_eq. split; [by right|eauto].
  - rewrite runs_addEvent. destruct (runs b !! r) as [run|] eqn:Hr.
    + rewrite lookup_insert_eq. split; eauto.
    + rewrite Hr. split; [by left|]. by intros [H|H].
  - rewrite runs_waitForEvents. split; [by left|]. by intros [H|H].
  - rewrite runs_getNewEvents. destruct (runs b !! r) as [run|] eqn:Hr.
    + rewrite lookup_insert_eq. split; eauto.
    + rewrite Hr. split; [by left|]. by intros [H|H].
  - rewrite runs_setStatus. destruct (runs b !! r) as [run|] eqn:Hr.
    + rewrite lookup_insert_eq. split; eauto.
    + rewrite Hr. split; [by left|]. by intros [H|H].
Qed.

Lemma keysAgree_step op order b :
  keysAgree order b -> keysAgree (stepKeys op order) (step op b).
Proof.
  intros [Hnd Hkeys].
  assert (Hother : (forall r, op <> OpCreateRun r) ->
                   keysAgree order (step op b)).
  { intros Hne. split; [done|]. intros r. rewrite is_Some_step, Hkeys.
    split; [by left|]. intros [H|H]; [done|]. by destruct (Hne r). }
  destruct op as [r0|r0 e|r0|fn|r0|r0 s]; try (apply Hother; by intros r).
  clear Hother. unfold stepKeys, mapSetKey. case_bool_decide as Hin.
  - split; [done|]. intros r. rewrite is_Some_step, Hkeys.
    split; [by left|]. intros [H|[= ->]]; [done|]. by apply Hkeys.
  - split.
    + apply NoDup_app. split; [done|]. split; [|apply NoDup_singleton].
      intros x Hx Hx'. apply list_elem_of_singleton in Hx' as ->. done.
    + intros r. rewrite is_Some_step, elem_of_app, Hkeys,
        list_elem_of_singleton.
      split; intros [H|H]; auto; [right; by subst|right; congruence].
Qed.

Lemma keysAgree_runOps ops order b :
  keysAgree order b -> keysAgree (keysAfter ops order) (runOps ops b).
Proof.
  revert order b. induction ops as [|op ops IH]; intros order b H; [done|].
  cbn. apply IH. by apply keysAgree_step.
Qed.

Lemma stepKeys_prefix op order : order `prefix_of` stepKeys op order.
Proof.
  destruct op; try done. unfold stepKeys, mapSetKey.
  case_bool_decide; [done|]. by apply prefix_app_r.
Qed.

Lemma keysAfter_prefix ops order : order `prefix_of` keysAfter ops order.
Proof.
  revert order. induction ops as [|op ops IH]; intros order; [done|].
  cbn. etrans; [apply stepKeys_prefix|apply IH].
Qed.

Lemma listRuns_ids order b :
  (forall r, r ∈ order -> is_Some (runs b !! r)) ->
  map summaryRunId (listRuns order b) = order.
Proof.
  unfold listRuns. induction order as [|k order IH]; intros Hall; [done|].
  cbn. destruct (Hall k) as [run Hrun]; [by left|]. rewrite Hrun. cbn.
  f_equal. apply IH. intros r Hr. apply Hall. by right.
Qed.

(** X10.  After any sequence of operations from the empty buffer,
    [listRuns] yields exactly one summary per run of the registry, in the
    order in which the ids were first created, and each summary shows the
    current status, topic and agent counters of its run; the list is empty,
    and [handleListRuns] answers with its no-deliberations message, exactly
    when no run was ever created.  Later operations never move or
    drop an id that is listed: the ids listed now are a prefix of the ids
    listed later. *)
Theorem listRuns_spec (ops : list Op) :
  let b := runOps ops emptyBuffer in
  let order := keysAfter ops [] in
  NoDup order
  /\ (forall r, r ∈ order <-> has r b = true)
  /\ map summaryRunId (listRuns order b) = order
  /\ (forall s,
        s ∈ listRuns order b <->
        exists run, runs b !! summaryRunId s = Some run
                    /\ s = summaryOf (summaryRunId s) run)
  /\ (listRuns order b = [] <-> forall r, has r b = false)
  /\ fst (handleListRuns order b) = listRuns order b
  /\ (snd (handleListRuns order b)
      = Some "No Wisepanel deliberations in this session."
      <-> forall r, has r b = false)
  /\ (forall more, order `prefix_of` keysAfter (ops ++ more) []).
Proof.
  intros b order.
  assert (Hagree : keysAgree order b).
  { apply keysAgree_runOps. split; [apply NoDup_nil_2|].
    intros r. unfold emptyBuffer; cbn. rewrite lookup_empty, elem_of_nil.
    split; [done|]. by intros [x Hx]. }
  destruct Hagree as [Hnd Hkeys].
  assert (Hids : map summaryRunId (listRuns order b) = order).
  { apply listRuns_ids. intros r. apply Hkeys. }
  split; [done|]. split; [intros r; by rewrite has_true|].
  assert (Hempty : listRuns order b = [] <-> forall r, has r b = false).
  { split.
    - intros Hnil r. rewrite Hnil in Hids. cbn in Hids.
      destruct (has r b) eqn:Hhas; [|done].
      apply has_true, Hkeys in Hhas. rewrite <- Hids in Hhas.
      by apply elem_of_nil in Hhas.
    - intros Hnone. destruct order as [|k order']; [done|].
      assert (Hk : has k b = true) by (apply has_true, Hkeys; by left).
      by rewrite Hnone in Hk. }
  split; [done|]. split; [|split; [done|split; [|split]]].
  - intros s. unfold listRuns. rewrite list_elem_of_omap. split.
    + intros (k & Hk & Hs). destruct (runs b !! k) as [run|] eqn:Hrun; [|done].
      cbn in Hs. injection Hs as <-. cbn. eauto.
    + intros (run & Hrun & Hs). exists (summaryRunId s). split.
      * apply Hkeys. eauto.
      * rewrite Hrun. cbn. by rewrite Hs.
  - unfold handleListRuns. by destruct (listRuns order b).
  - rewrite <- Hempty. unfold handleListRuns.
    by destruct (listRuns order b).
  - intros more. unfold keysAfter. rewrite fold_left_app.
    apply keysAfter_prefix.
Qed.

Example listRuns_keeps_creation_order :
  let ops := [OpCreateRun "R2"; OpCreateRun "R1";
              OpAddEvent "R1" sampleResponse; OpCreateRun "R2"] in
  map summaryRunId (listRuns (keysAfter ops []) (runOps ops emptyBuffer))
  = ["R2"; "R1"].
Proof. vm_compute. reflexivity. Qed.

(** * Properties of the tool handlers *)

(** ** Fetching the result *)


(** ** Publishing *)



(** ** Cancelling and broken streams *)

Lemma setRunStatus_twice s run :
  setRunStatus s (setRunStatus s run) = setRunStatus s run.
Proof. done. Qed.

Lemma setStatus_twice runId s b :
  setStatus runId s (setStatus runId s b) = setStatus runId s b.
Proof.
  unfold setStatus.
  destruct (runs b !! runId) as [run|] eqn:Hrun; cbn [runs withRuns];
    [|by rewrite Hrun].
  rewrite lookup_insert_eq. unfold withRuns. cbn [runs waiters heap].
  rewrite insert_insert_eq. reflexivity.
Qed.

(** What an override of the status to [s] leaves behind. *)
Lemma setStatus_effects runId s b run :
  runs b !! runId = Some run ->
  runs (setStatus runId s b) !! runId = Some (setRunStatus s run)
  /\ waiters (setStatus runId s b) = waiters b
  /\ heap (setStatus runId s b) = heap b
  /\ has runId (setStatus runId s b) = true
  /\ (s <> running -> snd (waitForEvents runId (setStatus runId s b)) = None).
Proof.
  intros Hrun.
  assert (Hrun' : runs (setStatus runId s b) !! runId = Some (setRunStatus s run))
    by (by rewrite runs_setStatus, Hrun, lookup_insert_eq).
  split; [done|].
  split; [unfold setStatus; by rewrite Hrun|].
  split; [unfold setStatus; by rewrite Hrun|].
  split; [apply has_true; eauto|].
  intros Hs. unfold waitForEvents. rewrite Hrun'.
  cbn [status setRunStatus].
  destruct s; try done; by rewrite orb_true_r.
Qed.

(** X13.  [handleCancel] on a known run overrides its status to
    [canceled] whatever it was, keeping the log, the cursor, the counters and
    the cached final event; it forgets the stream and is idempotent.  It
    does not notify: the waiters and their closures are as before, so a
    pending poll is not woken by the cancel (a new wait returns at once).
    Afterwards [handleResult] answers that the run was canceled, even for a
    run that had completed with a result, and [handlePublish] refuses. *)
Theorem handleCancel_overrides (formatFinalResult : SSEEvent -> string)
    (runId : string) (t : Tools) (run : RunState) :
  runs (buffer t) !! runId = Some run ->
  let t' := handleCancel runId t in
  runs (buffer t') !! runId = Some (setRunStatus canceled run)
  /\ (runId ∉ activeStreams t')
  /\ waiters (buffer t') = waiters (buffer t)
  /\ heap (buffer t') = heap (buffer t)
  /\ snd (waitForEvents runId (buffer t')) = None
  /\ handleResult formatFinalResult runId (buffer t')
     = ReplyError "Run was canceled."
  /\ handlePublishRequest runId (buffer t')
     = ReplyError "Run was canceled. Cannot publish a canceled deliberation."
  /\ handleCancel runId t' = t'.
Proof.
  intros Hrun t'.
  assert (Hhas : has runId (buffer t) = true) by (apply has_true; eauto).
  assert (Hb : buffer t' = setStatus runId canceled (buffer t)).
  { subst t'. unfold handleCancel. cbn. by rewrite Hhas. }
  destruct (setStatus_effects runId canceled (buffer t) run Hrun)
    as (Hrun' & Hw & Hh & Hhas' & Hwait).
  rewrite Hb.
  split; [done|].
  split.
  { subst t'. cbn. rewrite elem_of_difference, elem_of_singleton.
    by intros [_ H]. }
  split; [done|]. split; [done|]. split; [by apply Hwait|].
  split; [|split].
  - unfold handleResult, getResult. by rewrite Hhas', Hrun'.
  - unfold handlePublishRequest, getRunInfo. by rewrite Hhas', Hrun'.
  - subst t'. unfold handleCancel. cbn [buffer activeStreams]. rewrite Hhas.
    rewrite Hhas', setStatus_twice. f_equal.
    apply set_eq. intros x. rewrite !elem_of_difference. tauto.
Qed.

Lemma handleCancel_overrides_witness :
  handleResult (fun _ => "formatted") "R1"
    (buffer (handleCancel "R1"
               {| buffer := completedBuffer; activeStreams := {["R1"]} |}))
  = ReplyError "Run was canceled."
  /\ handleResult (fun _ => "formatted") "R1" completedBuffer
     = ReplyOk ("formatted" +:+ resultSuffix).
Proof.
  split.
  - exact (proj1 (proj2 (proj2 (proj2 (proj2 (proj2
      (handleCancel_overrides (fun _ => "formatted") "R1"
         {| buffer := completedBuffer; activeStreams := {["R1"]} |} _
         completedBuffer_run))))))).
  - unfold handleResult, getResult, has. cbn [buffer].
    rewrite completedBuffer_run. reflexivity.
Defined.

(** X14.  When the stream of a started run breaks, the handler overrides
    the status of the run it had learnt to [failed], whatever it was, and
    forgets the stream; nothing is logged and no waiter is notified, so a
    pending poll still runs to its timeout while a new wait returns at
    once, and [handleResult] answers that the run failed.  When no run id
    was learnt nothing changes. *)
Theorem streamFailed_overrides (formatFinalResult : SSEEvent -> string)
    (runId : string) (t : Tools) (run : RunState) :
  runs (buffer t) !! runId = Some run ->
  runId <> "" ->
  let t' := streamFailed runId t in
  runs (buffer t') !! runId = Some (setRunStatus failed run)
  /\ waiters (buffer t') = waiters (buffer t)
  /\ heap (buffer t') = heap (buffer t)
  /\ snd (waitForEvents runId (buffer t')) = None
  /\ handleResult formatFinalResult runId (buffer t')
     = ReplyError "Run failed."
  /\ streamFailed "" t = t.
Proof.
  intros Hrun Hne t'.
  assert (Hb : buffer t' = setStatus runId failed (buffer t)).
  { subst t'. unfold streamFailed.
    by rewrite (proj2 (String.eqb_neq runId "") Hne). }
  destruct (setStatus_effects runId failed (buffer t) run Hrun)
    as (Hrun' & Hw & Hh & Hhas' & Hwait).
  rewrite Hb.
  split; [done|]. split; [done|]. split; [done|].
  split; [by apply Hwait|]. split; [|done].
  unfold handleResult, getResult. by rewrite Hhas', Hrun'.
Qed.

Lemma streamFailed_overrides_witness :
  handleResult (fun _ => "formatted") "R1"
    (buffer (streamFailed "R1"
               {| buffer := completedBuffer; activeStreams := {["R1"]} |}))
  = ReplyError "Run failed.".
Proof.
  refine (proj1 (proj2 (proj2 (proj2 (proj2
    (streamFailed_overrides (fun _ => "formatted") "R1"
       {| buffer := completedBuffer; activeStreams := {["R1"]} |} _
       completedBuffer_run _)))))).
  discriminate.
Defined.

(** ** The stream callback of [handleStart] *)

Lemma namesRun_nonempty evt r : namesRun evt = Some r -> r <> "".
Proof.
  unfold namesRun. destruct (String.eqb (type evt) "connection"); [|done].
  unfold stringOrUndefined.
  destruct (lookupField "run_id" (props evt)) as [[| | |s| |]|]; try done.
  destruct (String.eqb_spec s ""); [done|]. by intros [= <-].
Qed.

Lemma namesRun_connection evt r : namesRun evt = Some r -> type evt = "connection".
Proof.
  unfold namesRun. destruct (String.eqb_spec (type evt) "connection"); done.
Qed.

Lemma runs_addEvents runId evts b run :
  runs b !! runId = Some run ->
  runs (addEvents runId evts b) !! runId = Some (ingest evts run).
Proof.
  revert b run. induction evts as [|e evts IH]; intros b run Hrun; [done|].
  cbn. apply IH. by apply addEvent_lookup.
Qed.

Lemma runs_addEvents_other runId other evts b :
  other <> runId ->
  runs (addEvents runId evts b) !! other = runs b !! other.
Proof.
  intros Hne. revert b. unfold addEvents.
  induction evts as [|e evts IH]; intros b; [done|].
  cbn [fold_left]. rewrite IH, runs_addEvent.
  destruct (runs b !! runId); [by rewrite lookup_insert_ne|done].
Qed.

Lemma events_ingest evts run : events (ingest evts run) = events run ++ evts.
Proof.
  revert run. induction evts as [|e evts IH]; intros run; cbn.
  - by rewrite app_nil_r.
  - rewrite IH, events_applyEvent. cbn. by rewrite <- app_assoc.
Qed.

Lemma countersMatchLog_ingest evts run :
  countersMatchLog run -> countersMatchLog (ingest evts run).
Proof.
  revert run. induction evts as [|e evts IH]; intros run H; [done|].
  cbn. by apply IH, countersMatchLog_push.
Qed.

Lemma addEvents_app runId l1 l2 b :
  addEvents runId (l1 ++ l2) b = addEvents runId l2 (addEvents runId l1 b).
Proof. unfold addEvents. by rewrite fold_left_app. Qed.

(** The callback on an event that names no run, before any run is known:
    nothing happens. *)
Lemma onEvent_idle evt call t :
  callRunId call = "" -> namesRun evt = None ->
  onEvent evt (call, t) = (call, t, None).
Proof.
  intros Hid Hname. unfold onEvent. rewrite Hname, Hid. cbn.
  rewrite andb_false_r. cbn. by destruct call; cbn in *; subst.
Qed.

(** ... and once a run is known: the event goes to that run, and the call
    resolves if it has not yet and the event is [agents_created]. *)
Lemma onEvent_running evt call t :
  callRunId call <> "" -> namesRun evt = None ->
  onEvent evt (call, t)
  = (let b' := addEvent (callRunId call) evt (buffer t) in
     ({| callRunId := callRunId call;
         callResolved := callResolved call || hasType "agents_created" evt |},
      {| buffer := b'; activeStreams := activeStreams t |},
      if negb (callResolved call) && hasType "agents_created" evt
      then match getRunInfo (callRunId call) b' with
           | Some info =>
               Some {| startRunId := callRunId call;
                       startEstimatedCost := infoEstimatedCost info;
                       startAgents := infoAgentsTotal info |}
           | None => None
           end
      else None)).
Proof.
  intros Hid Hname. unfold onEvent, hasType. rewrite Hname.
  rewrite (proj2 (String.eqb_neq _ _) Hid). cbn [negb andb].
  rewrite andb_true_r.
  destruct (callResolved call); cbn [negb andb orb]; [done|].
  by destruct (String.eqb (type evt) "agents_created").
Qed.

(** The callback on an event that names a run: the run is created anew and
    the event is its first. *)
Lemma onEvent_named evt r call t :
  namesRun evt = Some r ->
  onEvent evt (call, t)
  = ({| callRunId := r; callResolved := callResolved call |},
     {| buffer := addEvent r evt (createRun r (buffer t));
        activeStreams := {[r]} ∪ activeStreams t |},
     None).
Proof.
  intros Hname. unfold onEvent. rewrite Hname.
  rewrite (proj2 (String.eqb_neq _ _) (namesRun_nonempty _ _ Hname)).
  rewrite (namesRun_connection _ _ Hname). cbn [negb andb buffer activeStreams].
  by rewrite andb_false_r.
Qed.

Lemma onEvents_cons evt rest st :
  onEvents (evt :: rest) st
  = (fst (onEvents rest (fst (onEvent evt st))),
     match snd (onEvent evt st) with
     | Some r => r :: snd (onEvents rest (fst (onEvent evt st)))
     | None => snd (onEvents rest (fst (onEvent evt st)))
     end).
Proof.
  cbn [onEvents]. destruct (onEvent evt st) as [st1 reply].
  cbn [fst snd]. by destruct (onEvents rest st1).
Qed.

(** X15.  Events that arrive before any event has named a run (a
    [connection] event with a run id) are dropped: the buffer, the active
    streams and the call are as before, and the call is not resolved. *)
Theorem events_before_connection_are_dropped
    (evts : list SSEEvent) (call : StartCall) (t : Tools) :
  callRunId call = "" ->
  Forall (fun e => namesRun e = None) evts ->
  onEvents evts (call, t) = (call, t, []).
Proof.
  intros Hid Hall. induction Hall as [|e evts He Hall IH]; [done|].
  rewrite onEvents_cons, (onEvent_idle e call t Hid He). cbn [fst snd].
  by rewrite IH.
Qed.

Lemma events_before_connection_are_dropped_witness :
  onEvents [sampleResponse; agentsCreatedEvent 4]
    ({| callRunId := ""; callResolved := false |},
     {| buffer := sampleBuffer; activeStreams := ∅ |})
  = ({| callRunId := ""; callResolved := false |},
     {| buffer := sampleBuffer; activeStreams := ∅ |}, []).
Proof.
  apply events_before_connection_are_dropped; [reflexivity|].
  repeat constructor.
Defined.

(** The callback over a stream that names no run, once a run is known. *)
Lemma onEvents_running evts call t :
  callRunId call <> "" ->
  Forall (fun e => namesRun e = None) evts ->
  callRunId (fst (fst (onEvents evts (call, t)))) = callRunId call
  /\ callResolved (fst (fst (onEvents evts (call, t))))
     = callResolved call || existsb (hasType "agents_created") evts
  /\ buffer (snd (fst (onEvents evts (call, t))))
     = addEvents (callRunId call) evts (buffer t)
  /\ activeStreams (snd (fst (onEvents evts (call, t)))) = activeStreams t
  /\ (length (snd (onEvents evts (call, t))) <= 1)%nat
  /\ (callResolved call
      || negb (existsb (hasType "agents_created") evts) = true ->
      snd (onEvents evts (call, t)) = []).
Proof.
  intros Hid Hall. revert call t Hid.
  induction Hall as [|e evts He Hall IH]; intros call t Hid.
  - cbn. rewrite orb_false_r. repeat split; lia.
  - rewrite onEvents_cons, (onEvent_running e call t Hid He).
    cbn zeta. cbn [fst snd].
    set (call1 := {| callRunId := callRunId call;
                     callResolved := callResolved call
                                     || hasType "agents_created" e |}).
    set (t1 := {| buffer := addEvent (callRunId call) e (buffer t);
                  activeStreams := activeStreams t |}).
    destruct (IH call1 t1 Hid) as (H1 & H2 & H3 & H4 & H5 & H6).
    rewrite H1, H2, H3, H4. cbn [callRunId callResolved buffer activeStreams
      call1 t1 existsb addEvents fold_left].
    split; [done|]. split; [by rewrite orb_assoc|].
    split; [reflexivity|]. split; [done|].
    destruct (callResolved call) eqn:Hres; cbn [negb andb orb].
    + assert (Hnil : snd (onEvents evts (call1, t1)) = []).
      { apply H6. subst call1. cbn. by rewrite ?Hres. }
      rewrite Hnil. split; [cbn; lia|done].
    + destruct (hasType "agents_created" e) eqn:Hty; cbn [negb andb orb].
      * assert (Hnil : snd (onEvents evts (call1, t1)) = []).
        { apply H6. subst call1. cbn. by rewrite ?Hres, ?Hty. }
        rewrite Hnil. split; [|done].
        destruct (getRunInfo _ _); cbn; lia.
      * split; [done|]. intros Hno. apply H6. subst call1. cbn.
        by rewrite ?Hres, ?Hty.
Qed.

(** X16.  From an event that names a run id on, and until another event
    names a run, every event of the stream is logged under that id in
    arrival order, the naming event first: the run is created anew by the
    naming event, so that whatever the id held before is gone.  The stream
    is registered as active, and the call resolves at most once. *)
Theorem stream_is_logged_from_connection
    (conn : SSEEvent) (r : string) (post : list SSEEvent)
    (call : StartCall) (t : Tools) :
  namesRun conn = Some r ->
  Forall (fun e => namesRun e = None) post ->
  let result := onEvents (conn :: post) (call, t) in
  callRunId (fst (fst result)) = r
  /\ (events <$> runs (buffer (snd (fst result))) !! r) = Some (conn :: post)
  /\ r ∈ activeStreams (snd (fst result))
  /\ (length (snd result) <= 1)%nat
  /\ (forall other, other <> r ->
        runs (buffer (snd (fst result))) !! other = runs (buffer t) !! other).
Proof.
  intros Hname Hpost result. subst result.
  rewrite onEvents_cons, (onEvent_named conn r call t Hname). cbn [fst snd].
  set (call1 := {| callRunId := r; callResolved := callResolved call |}).
  set (t1 := {| buffer := addEvent r conn (createRun r (buffer t));
                activeStreams := {[r]} ∪ activeStreams t |}).
  assert (Hid : callRunId call1 <> "") by (by apply (namesRun_nonempty conn)).
  destruct (onEvents_running post call1 t1 Hid Hpost)
    as (H1 & H2 & H3 & H4 & H5 & H6).
  rewrite H1, H3, H4. cbn [callRunId call1 buffer activeStreams t1].
  assert (Hrun1 : runs (addEvent r conn (createRun r (buffer t))) !! r
                  = Some (ingest [conn] newRun)).
  { apply addEvent_lookup. cbn. apply lookup_insert_eq. }
  split; [done|]. split.
  { rewrite (runs_addEvents r post _ _ Hrun1). cbn [fmap option_fmap option_map].
    by rewrite events_ingest, events_ingest. }
  split; [apply elem_of_union; left; by apply elem_of_singleton|].
  split; [done|].
  intros other Hne. clear H1 H2 H3 H4 H5 H6.
  rewrite runs_addEvents_other by done.
  rewrite runs_addEvent. cbn [runs createRun withRuns].
  rewrite lookup_insert_eq. by rewrite !lookup_insert_ne.
Qed.



Lemma stream_is_logged_from_connection_witness :
  (events <$>
     runs (buffer (snd (fst
       (onEvents [connectionEvent "R2" "X"; agentsCreatedEvent 4; sampleResponse]
          ({| callRunId := ""; callResolved := false |},
           {| buffer := sampleBuffer; activeStreams := ∅ |}))))) !! "R2")
  = Some [connectionEvent "R2" "X"; agentsCreatedEvent 4; sampleResponse].
Proof.
  refine (proj1 (proj2
    (stream_is_logged_from_connection (connectionEvent "R2" "X") "R2"
       [agentsCreatedEvent 4; sampleResponse]
       {| callRunId := ""; callResolved := false |}
       {| buffer := sampleBuffer; activeStreams := ∅ |} _ _))).
  - reflexivity.
  - repeat constructor.
Defined.



(** ** Polling *)





(** ** Publishing a streamed run *)

(** X20.  For a run ingested by the stream callback (a naming event, then
    events that name no run), the data extracted for publishing carries the
    run id the stream named, and its agent count is the count of the latest
    [agents_created] event of the stream. *)
Theorem streamed_run_publish_identity
    (conn : SSEEvent) (r : string) (post : list SSEEvent)
    (call : StartCall) (t : Tools) (data : CommonsPublishData) :
  namesRun conn = Some r ->
  Forall (fun e => namesRun e = None) post ->
  getPublishData r
    (buffer (snd (fst (onEvents (conn :: post) (call, t))))) = Some data ->
  pubRunId data = r
  /\ agentCount data = latestNumber "agents_created" "count" (conn :: post).
Proof.
  intros Hname Hpost.
  rewrite onEvents_cons, (onEvent_named conn r call t Hname). cbn [fst snd].
  set (call1 := {| callRunId := r; callResolved := callResolved call |}).
  set (t1 := {| buffer := addEvent r conn (createRun r (buffer t));
                activeStreams := {[r]} ∪ activeStreams t |}).
  assert (Hid : callRunId call1 <> "") by (by apply (namesRun_nonempty conn)).
  destruct (onEvents_running post call1 t1 Hid Hpost) as (_ & _ & H3 & _).
  rewrite H3. cbn [callRunId call1 buffer t1].
  assert (Hrun1 : runs (addEvent r conn (createRun r (buffer t))) !! r
                  = Some (ingest [conn] newRun)).
  { apply addEvent_lookup. cbn. apply lookup_insert_eq. }
  pose proof (runs_addEvents r post _ _ Hrun1) as Hrun.
  set (run := ingest post (ingest [conn] newRun)) in *.
  assert (Hev : events run = conn :: post).
  { subst run. by rewrite !events_ingest. }
  assert (Hinv : countersMatchLog run).
  { subst run. apply countersMatchLog_ingest, countersMatchLog_ingest.
    by repeat split. }
  unfold getPublishData. rewrite Hrun.
  destruct (negb (Status_eqb (status run) completed)); [done|].
  destruct (finalResult run) as [final|]; [|done].
  destruct (lookupField "conversation" (props final)) as [conv|]; [|done].
  destruct (negb (truthy (Some conv))); [done|].
  intros [= <-]. cbn [pubRunId agentCount]. split.
  - pose proof (namesRun_connection conn r Hname) as Hty.
    rewrite Hev. cbn [find]. rewrite Hty, String.eqb_refl.
    revert Hname. unfold namesRun, stringOrUndefined, stringOr.
    rewrite Hty, String.eqb_refl.
    destruct (lookupField "run_id" (props conn)) as [[| | |s| |]|]; try done.
    destruct (String.eqb s ""); [done|]. by intros [= ->].
  - destruct Hinv as (_ & -> & _). by rewrite Hev.
Qed.

Lemma streamed_run_publish_identity_witness :
  exists data,
    getPublishData "R1"
      (buffer (snd (fst
         (onEvents
            [connectionEvent "R1" "X"; agentsCreatedEvent 4;
             finalEvent [("conversation", JObj [("topic", JStr "X")])]]
            ({| callRunId := ""; callResolved := false |},
             {| buffer := emptyBuffer; activeStreams := ∅ |}))))) = Some data
    /\ pubRunId data = "R1" /\ agentCount data = 4.
Proof.
  destruct (getPublishData "R1" _) as [data|] eqn:Hdata.
  - exists data. split; [reflexivity|].
    exact (streamed_run_publish_identity (connectionEvent "R1" "X") "R1"
             [agentsCreatedEvent 4;
              finalEvent [("conversation", JObj [("topic", JStr "X")])]]
             _ _ data eq_refl ltac:(repeat constructor) Hdata).
  - exfalso. revert Hdata. vm_compute. discriminate.
Defined.

(** * Properties of the stream reader *)

Lemma splitFrames_cons_other c rest :
  Ascii.eqb c LF = false ->
  splitFrames (String c rest) = prependChar c (splitFrames rest).
Proof. intros Hc. cbn [splitFrames]. rewrite Hc. by destruct rest. Qed.

Lemma splitFrames_LF_other c rest :
  Ascii.eqb c LF = false ->
  splitFrames (String LF (String c rest))
  = prependChar LF (splitFrames (String c rest)).
Proof.
  intros Hc. change (splitFrames (String LF (String c rest)))
    with (if Ascii.eqb LF LF && Ascii.eqb c LF
          then let '(parts, last) := splitFrames rest in
               (EmptyString :: parts, last)
          else prependChar LF (splitFrames (String c rest))).
  by rewrite Hc, andb_false_r.
Qed.

Lemma splitFrames_break rest :
  splitFrames (String LF (String LF rest))
  = (EmptyString :: fst (splitFrames rest), snd (splitFrames rest)).
Proof.
  change (splitFrames (String LF (String LF rest)))
    with (let '(parts, last) := splitFrames rest in
          (EmptyString :: parts, last)).
  by destruct (splitFrames rest).
Qed.

Lemma splitLines_cons_other c rest :
  Ascii.eqb c LF = false ->
  splitLines (String c rest)
  = match splitLines rest with
    | l :: ls => String c l :: ls
    | [] => [String c EmptyString]
    end.
Proof. intros Hc. cbn [splitLines]. by rewrite Hc. Qed.

Lemma splitLines_line l :
  noLF l = true -> splitLines l = [l].
Proof.
  induction l as [|c l IH]; [done|]. cbn [noLF].
  intros [Hc Hl]%andb_true_iff. apply negb_true_iff in Hc.
  by rewrite splitLines_cons_other, IH.
Qed.

Lemma splitLines_line_LF l rest :
  noLF l = true ->
  splitLines (l +:+ String LF rest) = l :: splitLines rest.
Proof.
  induction l as [|c l IH].
  - intros _. rewrite append_empty. cbn [splitLines]. by rewrite Ascii.eqb_refl.
  - cbn [noLF]. intros [Hc Hl]%andb_true_iff. apply negb_true_iff in Hc.
    by rewrite append_cons, splitLines_cons_other, IH.
Qed.

(** Splitting at line feeds undoes joining lines with line feeds. *)
Lemma splitLines_join lines :
  lines <> [] ->
  forallb noLF lines = true ->
  splitLines (String.concat (String LF EmptyString) lines) = lines.
Proof.
  induction lines as [|l lines IH]; [done|]. intros _. cbn [forallb].
  intros [Hl Hrest]%andb_true_iff.
  destruct lines as [|l' lines'].
  - cbn [String.concat]. by apply splitLines_line.
  - change (String.concat (String LF "") (l :: l' :: lines'))
      with (l +:+ String LF (String.concat (String LF "") (l' :: lines'))).
    rewrite splitLines_line_LF by done. f_equal. by apply IH.
Qed.

Lemma isLine_head l :
  isLine l = true ->
  exists c rest, l = String c rest /\ Ascii.eqb c LF = false /\ noLF rest = true.
Proof.
  unfold isLine. destruct l as [|c rest]; [done|]. cbn [noLF].
  intros [[Hc Hl]%andb_true_iff _]%andb_true_iff.
  apply negb_true_iff in Hc. eauto.
Qed.

(** A prefix without line feeds stays with the part it begins. *)
Lemma splitFrames_noLF_prefix x s :
  noLF x = true ->
  splitFrames (x +:+ s)
  = match splitFrames s with
    | ([], rest) => ([], x +:+ rest)
    | (p :: ps, rest) => ((x +:+ p) :: ps, rest)
    end.
Proof.
  induction x as [|c x IH].
  - intros _. rewrite append_empty. by destruct (splitFrames s) as [[|p ps] r].
  - cbn [noLF]. intros [Hc Hx]%andb_true_iff. apply negb_true_iff in Hc.
    rewrite append_cons, splitFrames_cons_other, IH by done.
    by destruct (splitFrames s) as [[|p ps] r].
Qed.

Lemma append_assoc s t u : (s +:+ t) +:+ u = s +:+ (t +:+ u).
Proof. induction s as [|c s IH]; [done|]. by rewrite !append_cons, IH. Qed.

Lemma append_empty_r s : s +:+ EmptyString = s.
Proof. induction s as [|c s IH]; [done|]. by rewrite append_cons, IH. Qed.

Lemma join_cons_cons l l' lines :
  String.concat (String LF EmptyString) (l :: l' :: lines)
  = l +:+ String LF (String.concat (String LF EmptyString) (l' :: lines)).
Proof. reflexivity. Qed.

Lemma join_head l lines :
  isLine l = true ->
  exists c y,
    Ascii.eqb c LF = false
    /\ String.concat (String LF EmptyString) (l :: lines) = String c y.
Proof.
  intros Hl. destruct (isLine_head l Hl) as (c & x & -> & Hc & _).
  exists c. destruct lines as [|l' lines'].
  - by exists x.
  - rewrite join_cons_cons, append_cons. eauto.
Qed.

(** The lines of a frame, joined, up to the blank line that ends the
    frame. *)
Lemma splitFrames_frame lines s :
  lines <> [] ->
  forallb isLine lines = true ->
  splitFrames (encodeFrame lines +:+ s)
  = (String.concat (String LF EmptyString) lines :: fst (splitFrames s),
     snd (splitFrames s)).
Proof.
  unfold encodeFrame.
  induction lines as [|l lines IH]; [done|]. intros _. cbn [forallb].
  intros [Hl Hrest]%andb_true_iff.
  assert (Hline : noLF l = true).
  { unfold isLine in Hl. by apply andb_true_iff in Hl as [H _]. }
  destruct lines as [|l' lines'].
  - cbn [String.concat]. rewrite append_assoc.
    rewrite splitFrames_noLF_prefix by done.
    rewrite !append_cons, append_empty, splitFrames_break.
    by rewrite append_empty_r.
  - rewrite join_cons_cons, !append_assoc.
    rewrite splitFrames_noLF_prefix by done.
    rewrite append_cons.
    assert (Hl' : isLine l' = true).
    { cbn [forallb] in Hrest. by apply andb_true_iff in Hrest as [H _]. }
    destruct (join_head l' lines' Hl') as (c' & y & Hc' & Hjoin).
    specialize (IH ltac:(done) Hrest).
    rewrite append_assoc in IH. revert IH. rewrite Hjoin, append_cons.
    intros IH. rewrite splitFrames_LF_other, IH by done. reflexivity.
Qed.

Lemma splitFrames_stream frames :
  Forall (fun lines => lines <> [] /\ forallb isLine lines = true) frames ->
  splitFrames (encodeStream frames)
  = (map (String.concat (String LF EmptyString)) frames, EmptyString).
Proof.
  induction 1 as [|lines frames [Hne Hlines] _ IH]; [done|].
  cbn [encodeStream map]. rewrite splitFrames_frame by done.
  by rewrite IH.
Qed.

Lemma frameData_join lines :
  lines <> [] ->
  forallb isLine lines = true ->
  frameData (String.concat (String LF EmptyString) lines)
  = String.concat "" (dataLines lines).
Proof.
  intros Hne Hlines. unfold frameData. rewrite splitLines_join; [done|done|].
  clear Hne. induction lines as [|l lines IH]; [done|].
  cbn [forallb] in *. apply andb_true_iff in Hlines as [Hl Hrest].
  rewrite IH by done. unfold isLine in Hl.
  apply andb_true_iff in Hl as [Hl _]. by rewrite Hl.
Qed.

(** X21.  Decoding inverts the framing: for a stream made of frames, each
    a non-empty list of non-empty lines without line feeds, joined by line
    feeds and ended by a blank line, the reader hands to the parser, frame by
    frame and in order, the concatenation of what follows ["data: "] on the
    lines that start with it; lines of any other kind are ignored, frames
    without data are skipped, and nothing is left in the buffer. *)
Theorem readChunk_decodes_stream (frames : list (list string)) :
  Forall (fun lines => lines <> [] /\ forallb isLine lines = true) frames ->
  readChunk "" (encodeStream frames)
  = (List.filter (fun data => negb (String.eqb data ""))
       (map (fun lines => String.concat "" (dataLines lines)) frames),
     "").
Proof.
  intros Hframes. unfold readChunk. rewrite append_empty.
  rewrite (splitFrames_stream frames Hframes). f_equal.
  f_equal. rewrite map_map. apply map_ext_Forall.
  eapply Forall_impl; [exact Hframes|].
  intros lines [Hne Hlines]. by apply frameData_join.
Qed.

Lemma readChunk_decodes_stream_witness :
  readChunk ""
    (encodeStream [["event: message"; "data: [1]"];
                   [": keep-alive"];
                   ["data: [2,"; "data: 3]"]])
  = (["[1]"; "[2,3]"], "").
Proof.
  apply (readChunk_decodes_stream
           [["event: message"; "data: [1]"];
            [": keep-alive"];
            ["data: [2,"; "data: 3]"]]).
  repeat constructor; discriminate.
Defined.

(** ** Chunking *)

Lemma splitFrames_step c rest :
  splitFrames (String c rest)
  = if startsBreak (String c rest)
    then (EmptyString :: fst (splitFrames (dropString 1 rest)),
          snd (splitFrames (dropString 1 rest)))
    else prependChar c (splitFrames rest).
Proof.
  destruct rest as [|c' rest']; [done|].
  cbn [splitFrames startsBreak dropString].
  destruct (Ascii.eqb c LF && Ascii.eqb c' LF); [|done].
  by destruct (splitFrames rest').
Qed.

Lemma startsBreak_app c rest t :
  rest <> EmptyString ->
  startsBreak (String c (rest +:+ t)) = startsBreak (String c rest).
Proof. destruct rest as [|c' rest']; [done|]. by rewrite append_cons. Qed.

Lemma startsBreak_rest c rest :
  startsBreak (String c rest) = true ->
  exists rest', rest = String LF rest' /\ c = LF.
Proof.
  destruct rest as [|c' rest']; [done|]. cbn.
  intros [Hc Hc']%andb_true_iff.
  apply Ascii.eqb_eq in Hc, Hc'. subst. eauto.
Qed.

(** Without a blank line nothing is split off. *)
Lemma splitFrames_none s r : splitFrames s = ([], r) -> r = s.
Proof.
  revert r. induction s as [|c rest IH]; intros r; [by intros [= <-]|].
  rewrite splitFrames_step. destruct (startsBreak (String c rest)); [done|].
  destruct (splitFrames rest) as [[|p ps] r'] eqn:Hrest; [|done].
  cbn. intros [= <-]. f_equal. by apply IH.
Qed.

(** Reading on from what was left gives what reading the whole gives. *)
Lemma splitFrames_app s t :
  splitFrames (s +:+ t)
  = (fst (splitFrames s) ++ fst (splitFrames (snd (splitFrames s) +:+ t)),
     snd (splitFrames (snd (splitFrames s) +:+ t))).
Proof.
  remember (String.length s) as n eqn:Hn.
  assert (Hle : (String.length s <= n)%nat) by lia. clear Hn.
  revert s Hle. induction n as [|n IH]; intros s Hle.
  { destruct s; [|cbn in Hle; lia].
    cbn [splitFrames fst snd app]. rewrite !append_empty.
    by destruct (splitFrames t). }
  destruct s as [|c rest].
  { cbn [splitFrames fst snd app]. rewrite !append_empty.
    by destruct (splitFrames t). }
  cbn in Hle.
  destruct (splitFrames (String c rest)) as [[|p ps] r] eqn:Hs.
  { apply splitFrames_none in Hs as ->. cbn [fst snd app].
    by destruct (splitFrames (String c rest +:+ t)). }
  cbn [fst snd]. revert Hs. rewrite append_cons, !splitFrames_step.
  destruct (startsBreak (String c rest)) eqn:Hbreak.
  - destruct (startsBreak_rest c rest Hbreak) as (rest' & -> & ->).
    rewrite startsBreak_app, Hbreak by done.
    rewrite append_cons. cbn [dropString].
    intros [= <- <- <-]. rewrite (IH rest') by (cbn in Hle; lia).
    reflexivity.
  - destruct (splitFrames rest) as [[|p' ps'] r'] eqn:Hrest; [done|].
    cbn [prependChar]. intros [= <- <- <-].
    assert (Hne : rest <> EmptyString) by (by intros ->).
    rewrite startsBreak_app, Hbreak by done.
    rewrite (IH rest) by lia. rewrite Hrest. reflexivity.
Qed.

Lemma readChunk_app buf c1 c2 :
  readChunk buf (c1 +:+ c2)
  = (fst (readChunk buf c1) ++ fst (readChunk (snd (readChunk buf c1)) c2),
     snd (readChunk (snd (readChunk buf c1)) c2)).
Proof.
  unfold readChunk. rewrite <- append_assoc, splitFrames_app.
  destruct (splitFrames (buf +:+ c1)) as [parts1 buf1]. cbn [fst snd].
  destruct (splitFrames (buf1 +:+ c2)) as [parts2 buf2]. cbn [fst snd].
  by rewrite map_app, List.filter_app.
Qed.

Lemma readChunks_cons buf chunk rest :
  readChunks buf (chunk :: rest)
  = (fst (readChunk buf chunk)
       ++ fst (readChunks (snd (readChunk buf chunk)) rest),
     snd (readChunks (snd (readChunk buf chunk)) rest)).
Proof.
  cbn [readChunks]. destruct (readChunk buf chunk) as [out buf1].
  cbn [fst snd]. by destruct (readChunks buf1 rest).
Qed.

Lemma readChunks_nonempty buf chunk rest :
  readChunks buf (chunk :: rest)
  = readChunk buf (String.concat "" (chunk :: rest)).
Proof.
  revert buf chunk. induction rest as [|chunk' rest IH]; intros buf chunk.
  - rewrite readChunks_cons. cbn [readChunks fst snd String.concat].
    rewrite app_nil_r. by destruct (readChunk buf chunk).
  - rewrite readChunks_cons, IH.
    change (String.concat "" (chunk :: chunk' :: rest))
      with (chunk +:+ "" +:+ String.concat "" (chunk' :: rest)).
    rewrite append_empty. by rewrite readChunk_app.
Qed.

(** X22.  However the stream is cut into chunks, the reader hands the same
    strings to the parser, in the same order, as if the stream had arrived in
    one piece, and is left with the same buffer: a blank line that is split
    between two chunks still ends its frame. *)
Theorem readChunks_any_chunking (chunks : list string) :
  readChunks "" chunks = readChunk "" (String.concat "" chunks).
Proof.
  destruct chunks as [|chunk rest]; [done|]. apply readChunks_nonempty.
Qed.

Example readChunks_split_blank_line :
  readChunks "" ["data: [1]" +:+ String LF ""; String LF "data: [2"; "]";
                 String LF (String LF "data: ")]
  = (["[1]"; "[2]"], "data: ").
Proof. vm_compute. reflexivity. Qed.

(** * Waiting and polling together *)

Lemma hasPending_step op runId b run :
  runs b !! runId = Some run ->
  hasPending run ->
  consumes runId op = false ->
  exists run', runs (step op b) !! runId = Some run' /\ hasPending run'.
Proof.
  intros Hrun (i & e & Hle & Hi & He) Hop.
  destruct (decide (opRun op = Some runId)) as [Heq|Hne].
  2:{ exists run. rewrite step_other_run by done. split; [done|].
      by exists i, e. }
  destruct op as [r|r ev|r|fn|r|r s]; cbn in Heq; try discriminate;
    injection Heq as ->; cbn [step]; cbn in Hop;
    rewrite ?String.eqb_refl in Hop; try discriminate.
  - exists (applyEvent ev (pushEvent ev run)).
    rewrite (addEvent_lookup _ _ _ _ Hrun). split; [done|].
    exists i, e. rewrite events_applyEvent, lastPollIndex_applyEvent. cbn.
    split; [done|]. split; [|done]. by apply lookup_app_l_Some.
  - exists run. rewrite runs_waitForEvents. split; [done|]. by exists i, e.
  - exists (setRunStatus s run).
    rewrite runs_setStatus, Hrun, lookup_insert_eq. split; [done|].
    by exists i, e.
Qed.

Lemma hasPending_runOps ops runId b run :
  runs b !! runId = Some run ->
  hasPending run ->
  forallb (fun op => negb (consumes runId op)) ops = true ->
  exists run', runs (runOps ops b) !! runId = Some run' /\ hasPending run'.
Proof.
  revert b run. induction ops as [|op ops IH]; intros b run Hrun Hp Hops.
  - by exists run.
  - cbn in Hops. apply andb_true_iff in Hops as [Hop Hops].
    apply negb_true_iff in Hop.
    destruct (hasPending_step op runId b run Hrun Hp Hop) as (run1 & H1 & Hp1).
    rewrite runOps_cons. by apply (IH _ run1).
Qed.

(** X6.  No wake-up is lost and no poll spins.  In a state reached from the
    empty buffer, once an interesting event is ingested for a run, every
    wait on that run returns at once, whatever else happens, until the run
    is polled (or created again): an event that arrives between a poll and
    the next wait is not missed.  And right after a poll of a run that is
    still [running], a wait suspends on a fresh waiter instead of returning
    at once. *)
Theorem no_lost_wakeup
    (ops later : list Op) (runId : string) (run : RunState) (event : SSEEvent) :
  runs (runOps ops emptyBuffer) !! runId = Some run ->
  interesting (type event) = true ->
  forallb (fun op => negb (consumes runId op)) later = true ->
  let b := runOps ops emptyBuffer in
  snd (waitForEvents runId (runOps later (addEvent runId event b))) = None
  /\ (forall b1 res,
        getNewEvents runId b = (b1, Some res) ->
        pollStatus res = running ->
        snd (waitForEvents runId b1) = Some (length (heap b))).
Proof.
  intros Hrun Hint Hlater b. subst b. split.
  - assert (Hcur : (lastPollIndex run <= length (events run))%nat).
    { apply (cursorsOk_runOps ops emptyBuffer) with (runId := runId); [|done].
      intros r x. unfold emptyBuffer; cbn. by rewrite lookup_empty. }
    pose proof (addEvent_lookup runId event _ run Hrun) as Hrun1.
    assert (Hp1 : hasPending (applyEvent event (pushEvent event run))).
    { exists (length (events run)), event.
      rewrite events_applyEvent, lastPollIndex_applyEvent. cbn.
      split; [done|]. split; [|done].
      by rewrite lookup_app_r, Nat.sub_diag. }
    destruct (hasPending_runOps later runId _ _ Hrun1 Hp1 Hlater)
      as (run' & Hrun' & Hp').
    unfold waitForEvents. rewrite Hrun'.
    by rewrite (proj2 (hasNew_spec run') Hp').
  - intros b1 res. unfold getNewEvents. rewrite Hrun. intros [= <- <-].
    cbn [pollStatus setLastPollIndex status]. intros Hst.
    unfold waitForEvents. cbn [runs withRuns]. rewrite lookup_insert_eq.
    unfold pending. cbn [events lastPollIndex setLastPollIndex status].
    rewrite drop_all, Hst. reflexivity.
Qed.

Lemma no_lost_wakeup_witness :
  snd (waitForEvents "R1"
         (runOps [OpSetStatus "R2" failed; OpAddEvent "R1" cancelledEvent]
            (addEvent "R1" sampleResponse
               (runOps [OpCreateRun "R1"; OpGetNewEvents "R1"] emptyBuffer))))
  = None.
Proof.
  refine (proj1 (no_lost_wakeup [OpCreateRun "R1"; OpGetNewEvents "R1"]
                   [OpSetStatus "R2" failed; OpAddEvent "R1" cancelledEvent]
                   "R1" newRun sampleResponse _ _ _)).
  - vm_compute. reflexivity.
  - reflexivity.
  - reflexivity.
Defined.
